(** * Booking lifecycle, dispatch queue and earnings ledger

    A shallow embedding of the cleaner-facing part of the service layer
    (the Supabase client module with [pickBooking], [startJob], [pauseJob],
    [resumeJob], [completeJob], [uploadPaymentProof], [requestWithdrawal]
    and the fetch functions), of the dashboard computations in
    [CleanerDashboard.tsx] ([loadOrders], [getJobDuration]) and of the
    database trigger [verify_payment_and_update_earnings].

    Conventions.
    - A timestamp is the number of milliseconds since the epoch, the value
      [new Date(s).getTime()] yields for the stored ISO string; a nullable
      column is an [option].
    - Money and the hour totals are exact rationals ([Q]); every value the
      code handles (JS doubles, [numeric] columns) is one.  Quotients are
      exact, where the JS code rounds to the nearest double.
    - A table is the list of its rows; [UPDATE ... WHERE] rewrites the rows
      that satisfy the predicate.
    - An [async] function that may [throw] is a computation in the monad
      [M]: it takes the database, and returns a [result] and the database
      it leaves behind.  Writes made before a [throw] stay.
    - Row-level security policies on [bookings] are permissive and combine
      with those of migrations that are not among the sources, so the set in
      force is unknown: a write is modelled as seen by a caller the policies
      admit. *)

From Stdlib Require Import ZArith QArith Lqa Lia Bool List String Ascii.
From Stdlib Require Import DecimalString Sorted Permutation.
Import ListNotations.

Open Scope string_scope.
Open Scope Z_scope.

(** ** Data model *)

(** Modelled from the spec: the [booking_status] enum.  Its declaration is
    not among the sources (the migration only adds ['payment_verified']
    after ['completed']); the six values are those of the data model. *)
Inductive booking_status : Type :=
  | pending
  | picked
  | in_progress
  | paused
  | completed
  | payment_verified.

Definition status_eqb (a b : booking_status) : bool :=
  match a, b with
  | pending, pending | picked, picked | in_progress, in_progress
  | paused, paused | completed, completed
  | payment_verified, payment_verified => true
  | _, _ => false
  end.

Definition timestamp := Z.

(** A row of [bookings], restricted to the columns the modelled code reads
    or writes. *)
Record booking : Type := mkBooking {
  id : string;
  cleaner_id : option string;
  service_id : string;
  status : booking_status;
  scheduled_at : timestamp;
  picked_at : option timestamp;
  started_at : option timestamp;
  paused_at : option timestamp;
  total_pause_duration : option Z;
  completed_at : option timestamp;
  payment_collected_at : option timestamp;
  payment_proof_url : option string;
  amount : Q;
  is_deleted : bool
}.

(** Column assignments of an [update({...})] payload. *)
Definition set_cleaner_id (v : option string) (b : booking) : booking :=
  mkBooking (id b) v (service_id b) (status b) (scheduled_at b) (picked_at b)
    (started_at b) (paused_at b) (total_pause_duration b) (completed_at b)
    (payment_collected_at b) (payment_proof_url b) (amount b) (is_deleted b).

Definition set_status (v : booking_status) (b : booking) : booking :=
  mkBooking (id b) (cleaner_id b) (service_id b) v (scheduled_at b)
    (picked_at b) (started_at b) (paused_at b) (total_pause_duration b)
    (completed_at b) (payment_collected_at b) (payment_proof_url b)
    (amount b) (is_deleted b).

Definition set_picked_at (v : option timestamp) (b : booking) : booking :=
  mkBooking (id b) (cleaner_id b) (service_id b) (status b) (scheduled_at b)
    v (started_at b) (paused_at b) (total_pause_duration b) (completed_at b)
    (payment_collected_at b) (payment_proof_url b) (amount b) (is_deleted b).

Definition set_started_at (v : option timestamp) (b : booking) : booking :=
  mkBooking (id b) (cleaner_id b) (service_id b) (status b) (scheduled_at b)
    (picked_at b) v (paused_at b) (total_pause_duration b) (completed_at b)
    (payment_collected_at b) (payment_proof_url b) (amount b) (is_deleted b).

Definition set_paused_at (v : option timestamp) (b : booking) : booking :=
  mkBooking (id b) (cleaner_id b) (service_id b) (status b) (scheduled_at b)
    (picked_at b) (started_at b) v (total_pause_duration b) (completed_at b)
    (payment_collected_at b) (payment_proof_url b) (amount b) (is_deleted b).

Definition set_total_pause_duration (v : option Z) (b : booking) : booking :=
  mkBooking (id b) (cleaner_id b) (service_id b) (status b) (scheduled_at b)
    (picked_at b) (started_at b) (paused_at b) v (completed_at b)
    (payment_collected_at b) (payment_proof_url b) (amount b) (is_deleted b).

Definition set_completed_at (v : option timestamp) (b : booking) : booking :=
  mkBooking (id b) (cleaner_id b) (service_id b) (status b) (scheduled_at b)
    (picked_at b) (started_at b) (paused_at b) (total_pause_duration b) v
    (payment_collected_at b) (payment_proof_url b) (amount b) (is_deleted b).

Definition set_payment_collected_at (v : option timestamp) (b : booking)
  : booking :=
  mkBooking (id b) (cleaner_id b) (service_id b) (status b) (scheduled_at b)
    (picked_at b) (started_at b) (paused_at b) (total_pause_duration b)
    (completed_at b) v (payment_proof_url b) (amount b) (is_deleted b).

Definition set_payment_proof_url (v : option string) (b : booking) : booking :=
  mkBooking (id b) (cleaner_id b) (service_id b) (status b) (scheduled_at b)
    (picked_at b) (started_at b) (paused_at b) (total_pause_duration b)
    (completed_at b) (payment_collected_at b) v (amount b) (is_deleted b).

(** An element of the [earnings_history] JSON array. *)
Module Earning.
Record t : Type := mk {
  booking_id : string;
  amount : Q;
  service : option string;
  earned_at : timestamp
}.
End Earning.

(** A row of [cleaners].  [auth_id] is the auth uid of the user owning the
    row ([cleaners.user_id] joined with [users.auth_id], as the policies of
    the migration do). *)
Module Cleaner.
Record t : Type := mk {
  id : string;
  auth_id : string;
  earnings_balance : option Q;
  earnings_history : option (list Earning.t)
}.
End Cleaner.

Module Service.
Record t : Type := mk {
  id : string;
  name : string
}.
End Service.

(** A row of [earnings_withdrawals]. *)
Module Withdrawal.
Record t : Type := mk {
  cleaner_id : string;
  amount : Q
}.
End Withdrawal.

Record db : Type := mkDb {
  bookings : list booking;
  cleaners : list Cleaner.t;
  services : list Service.t;
  earnings_withdrawals : list Withdrawal.t
}.

Definition set_bookings (v : list booking) (d : db) : db :=
  mkDb v (cleaners d) (services d) (earnings_withdrawals d).

Definition set_cleaners (v : list Cleaner.t) (d : db) : db :=
  mkDb (bookings d) v (services d) (earnings_withdrawals d).

Definition set_earnings_withdrawals (v : list Withdrawal.t) (d : db) : db :=
  mkDb (bookings d) (cleaners d) (services d) v.

(** What a call sees outside the database: the session of the caller, the
    client clock ([new Date()], [Date.now()]; one reading per call), the
    server clock ([CURRENT_TIMESTAMP]), the base of the public URLs of the
    [receipts] bucket, and the error, if any, with which the blob store or
    the database answers a request of the call. *)
Record env : Type := mkEnv {
  session : option string;
  now : timestamp;
  current_timestamp : timestamp;
  receipts_public_url : string;
  upload_error : option string;
  insert_error : option string;
  update_error : option string;
  select_error : option string
}.

(** ** JavaScript and SQL coercions *)

(** Truthiness of a nullable column (a non-empty string when set); also
    [IS NOT NULL]. *)
Definition truthy {A} (x : option A) : bool :=
  match x with Some _ => true | None => false end.

(** [new Date(x).getTime()]: [new Date(null)] is the epoch. *)
Definition getTime (x : option timestamp) : Z :=
  match x with Some t => t | None => 0 end.

(** [x || 0] on a nullable number. *)
Definition or_zero (x : option Z) : Z :=
  match x with Some n => n | None => 0 end.

(** A nullable [numeric] as a JS operand ([null] counts as 0), and
    [COALESCE(x, 0)]. *)
Definition num (x : option Q) : Q :=
  match x with Some q => q | None => 0%Q end.

Definition Qltb (x y : Q) : bool := negb (Qle_bool y x).

(** Decimal rendering of an integral JS number inside a template literal. *)
Definition show_int (z : Z) : string := NilZero.string_of_int (Z.to_int z).

Definition opt_string_eqb (x : option string) (y : string) : bool :=
  match x with Some s => String.eqb s y | None => false end.

(** ** Errors and the monad of the service functions *)

Inductive error : Type :=
  | Thrown (message : string)
  | StoreError (e : string).

Inductive result (A : Type) : Type :=
  | Ok (a : A)
  | Err (e : error).

Arguments Ok {A} a.
Arguments Err {A} e.

Definition M (A : Type) : Type := db -> result A * db.

Definition ret {A} (a : A) : M A := fun d => (Ok a, d).

Definition throw {A} (e : error) : M A := fun d => (Err e, d).

Definition bind {A B} (m : M A) (k : A -> M B) : M B :=
  fun d =>
    match m d with
    | (Ok a, d') => k a d'
    | (Err e, d') => (Err e, d')
    end.

Notation "x <- m ;; k" := (bind m (fun x => k))
  (at level 61, m at next level, right associativity).

(** ** The store *)

Definition update_where {A} (p : A -> bool) (f : A -> A) (rows : list A)
  : list A :=
  map (fun r => if p r then f r else r) rows.

(** [.single()]: the row when there is exactly one. *)
Definition single {A} (rows : list A) : option A :=
  match rows with
  | [r] => Some r
  | _ => None
  end.

(** Stable insertion sort by a JS comparator ([cmp a b <= 0] keeps [a]
    before [b]). *)
Fixpoint insert_by {A} (cmp : A -> A -> Z) (x : A) (l : list A) : list A :=
  match l with
  | [] => [x]
  | y :: l' => if cmp x y <=? 0 then x :: y :: l' else y :: insert_by cmp x l'
  end.

Definition sort_by {A} (cmp : A -> A -> Z) (l : list A) : list A :=
  fold_right (insert_by cmp) [] l.

(** Modelled from the spec: the rows of [cleaners] a session sees (the
    select policy of that table is not among the sources): those of the
    session's own user. *)
Definition visible_cleaners (uid : string) (d : db) : list Cleaner.t :=
  filter (fun c => String.eqb (Cleaner.auth_id c) uid) (cleaners d).

(** [supabase.from('cleaners').select(...).single()], [data] only. *)
Definition select_cleaner (e : env) : M (option Cleaner.t) :=
  fun d =>
    match session e, select_error e with
    | Some uid, None => (Ok (single (visible_cleaners uid d)), d)
    | _, _ => (Ok None, d)
    end.

(** A conditional update of [bookings] that does not name
    [payment_proof_url]; yields the [error] field of the response. *)
Definition update_bookings (e : env) (p : booking -> bool)
  (f : booking -> booking) : M (option string) :=
  fun d =>
    match update_error e with
    | Some err => (Ok (Some err), d)
    | None => (Ok None, set_bookings (update_where p f (bookings d)) d)
    end.

(** ** Payment verification trigger (migration [steep_unit]) *)

Definition service_name_of (ss : list Service.t) (sid : string)
  : option string :=
  match filter (fun s => String.eqb (Service.id s) sid) ss with
  | s :: _ => Some (Service.name s)
  | [] => None
  end.

Definition earning_amount (service_name : option string) : Q :=
  if opt_string_eqb service_name "Car Wash" then 150%Q else 200%Q.

Definition earnings_entry (ts : timestamp) (service_name : option string)
  (NEW : booking) : Earning.t :=
  Earning.mk (id NEW) (earning_amount service_name) service_name ts.

Definition credit (entry : Earning.t) (c : Cleaner.t) : Cleaner.t :=
  Cleaner.mk (Cleaner.id c) (Cleaner.auth_id c)
    (Some (num (Cleaner.earnings_balance c) + Earning.amount entry)%Q)
    (Some (match Cleaner.earnings_history c with
           | Some h => h
           | None => []
           end ++ [entry])%list).

(** The trigger function: from the old and the proposed row and the
    [cleaners] table to the row that is written and the table left. *)
Definition verify_payment_and_update_earnings (ts : timestamp)
  (ss : list Service.t) (cs : list Cleaner.t) (OLD NEW : booking)
  : booking * list Cleaner.t :=
  if truthy (payment_proof_url NEW) && negb (truthy (payment_proof_url OLD))
  then
    let NEW' :=
      set_status payment_verified (set_payment_collected_at (Some ts) NEW) in
    let service_name := service_name_of ss (service_id NEW') in
    let entry := earnings_entry ts service_name NEW' in
    (NEW',
     update_where
       (fun c => opt_string_eqb (cleaner_id NEW') (Cleaner.id c))
       (credit entry) cs)
  else (NEW, cs).

(** [UPDATE bookings SET payment_proof_url = ..., ... WHERE p]: the trigger
    runs before each matched row is written. *)
Fixpoint update_bookings_of_payment_proof_url (ts : timestamp)
  (ss : list Service.t) (p : booking -> bool) (f : booking -> booking)
  (rows : list booking) (cs : list Cleaner.t)
  : list booking * list Cleaner.t :=
  match rows with
  | [] => ([], cs)
  | r :: rest =>
      if p r then
        let '(r', cs') := verify_payment_and_update_earnings ts ss cs r (f r) in
        let '(rest', cs'') :=
          update_bookings_of_payment_proof_url ts ss p f rest cs' in
        (r' :: rest', cs'')
      else
        let '(rest', cs') :=
          update_bookings_of_payment_proof_url ts ss p f rest cs in
        (r :: rest', cs')
  end.

(** ** Booking lifecycle operations (service layer) *)

Definition pickBooking (e : env) (bookingId : string) : M unit :=
  match session e with
  | None => throw (Thrown "Not authenticated")
  | Some _ =>
      cleanerProfile <- select_cleaner e ;;
      match cleanerProfile with
      | None => throw (Thrown "Cleaner profile not found")
      | Some cleanerProfile =>
          error <- update_bookings e
            (fun b => String.eqb (id b) bookingId
                      && status_eqb (status b) pending
                      && negb (is_deleted b))
            (fun b => set_picked_at (Some (now e))
                        (set_status picked
                           (set_cleaner_id (Some (Cleaner.id cleanerProfile)) b))) ;;
          match error with
          | Some err => throw (StoreError err)
          | None => ret tt
          end
      end
  end.

Definition startJob (e : env) (bookingId : string) : M unit :=
  error <- update_bookings e
    (fun b => String.eqb (id b) bookingId
              && status_eqb (status b) picked
              && negb (is_deleted b))
    (fun b => set_started_at (Some (now e)) (set_status in_progress b)) ;;
  match error with
  | Some err => throw (StoreError err)
  | None => ret tt
  end.

Definition pauseJob (e : env) (bookingId : string) : M unit :=
  error <- update_bookings e
    (fun b => String.eqb (id b) bookingId
              && status_eqb (status b) in_progress
              && negb (is_deleted b))
    (fun b => set_paused_at (Some (now e)) (set_status paused b)) ;;
  match error with
  | Some err => throw (StoreError err)
  | None => ret tt
  end.

(** [supabase.from('bookings').select(...).eq('id', bookingId).single()],
    [data] only, the select being answered.  (A select the store refuses
    also gives null [data], on which [resumeJob] throws 'Job not paused';
    that path is not taken up here, so statements about [resumeJob]
    throwing are made for an answered select.) *)
Definition select_booking (bookingId : string) : M (option booking) :=
  fun d =>
    (Ok (single (filter (fun b => String.eqb (id b) bookingId) (bookings d))), d).

Definition resumeJob (e : env) (bookingId : string) : M unit :=
  booking <- select_booking bookingId ;;
  match booking with
  | None => throw (Thrown "Job not paused")
  | Some booking =>
      match paused_at booking with
      | None => throw (Thrown "Job not paused")
      | Some paused_at_ =>
          let pauseDuration := (now e - paused_at_) / (1000 * 60) in
          error <- update_bookings e
            (fun b => String.eqb (id b) bookingId
                      && status_eqb (status b) paused
                      && negb (is_deleted b))
            (fun b => set_total_pause_duration
                        (Some (or_zero (total_pause_duration booking)
                               + pauseDuration))
                        (set_paused_at None (set_status in_progress b))) ;;
          match error with
          | Some err => throw (StoreError err)
          | None => ret tt
          end
      end
  end.

Definition completeJob (e : env) (bookingId : string) : M unit :=
  error <- update_bookings e
    (fun b => String.eqb (id b) bookingId
              && (status_eqb (status b) in_progress
                  || status_eqb (status b) paused)
              && negb (is_deleted b))
    (fun b => set_completed_at (Some (now e)) (set_status completed b)) ;;
  match error with
  | Some err => throw (StoreError err)
  | None => ret tt
  end.

(** [name.split('.').pop()]: what follows the last dot, the whole name when
    there is none. *)
Fixpoint split_dot_pop (name seg : string) : string :=
  match name with
  | EmptyString => seg
  | String c rest =>
      if Ascii.eqb c "."%char then split_dot_pop rest ""
      else split_dot_pop rest (seg ++ String c "")%string
  end.

(** The update of [uploadPaymentProof] with its [.select().single()]: the
    response carries an error unless exactly one row comes back ([id] is
    the primary key, so no more than one does). *)
Definition update_payment_proof (e : env) (bookingId publicUrl : string)
  : M (option string) :=
  fun d =>
    match update_error e with
    | Some err => (Ok (Some err), d)
    | None =>
        let p := fun b => String.eqb (id b) bookingId in
        if (List.length (filter p (bookings d)) =? 1)%nat then
          let '(rows, cs) :=
            update_bookings_of_payment_proof_url (current_timestamp e)
              (services d) p
              (fun b => set_payment_collected_at (Some (now e))
                          (set_payment_proof_url (Some publicUrl) b))
              (bookings d) (cleaners d) in
          (Ok None, set_cleaners cs (set_bookings rows d))
        else (Ok (Some "PGRST116"), d)
    end.

(** The file name and [payment_collected_at] take the same clock reading
    (the code reads the clock for each, with the awaited upload between
    them), and the public URL is the base of the bucket followed by the
    path as it stands ([getPublicUrl] also percent-encodes the path). *)
Definition uploadPaymentProof (e : env) (bookingId : string)
  (file_name : string) : M string :=
  match session e with
  | None => throw (Thrown "Not authenticated")
  | Some _ =>
      let fileExt := split_dot_pop file_name "" in
      let fileName :=
        (bookingId ++ "-" ++ show_int (now e) ++ "." ++ fileExt)%string in
      let filePath := ("payment-proofs/" ++ fileName)%string in
      match upload_error e with
      | Some err => throw (StoreError err)
      | None =>
          let publicUrl := (receipts_public_url e ++ filePath)%string in
          updateError <- update_payment_proof e bookingId publicUrl ;;
          match updateError with
          | Some err => throw (StoreError err)
          | None => ret publicUrl
          end
      end
  end.

(** ** Earnings account (service layer) *)

Definition fetchCleanerEarnings (e : env) : M (option Cleaner.t) :=
  match session e with
  | None => ret None
  | Some uid =>
      fun d =>
        match select_error e with
        | Some err => (Err (StoreError err), d)
        | None =>
            match single (visible_cleaners uid d) with
            | Some cleaner => (Ok (Some cleaner), d)
            | None => (Err (StoreError "PGRST116"), d)
            end
        end
  end.

Definition insert_withdrawal (e : env) (w : Withdrawal.t) : M (option string) :=
  fun d =>
    match insert_error e with
    | Some err => (Ok (Some err), d)
    | None =>
        (Ok None, set_earnings_withdrawals (earnings_withdrawals d ++ [w]) d)
    end.

Definition update_cleaners (e : env) (p : Cleaner.t -> bool)
  (f : Cleaner.t -> Cleaner.t) : M (option string) :=
  fun d =>
    match update_error e with
    | Some err => (Ok (Some err), d)
    | None => (Ok None, set_cleaners (update_where p f (cleaners d)) d)
    end.

Definition set_earnings_balance (v : option Q) (c : Cleaner.t) : Cleaner.t :=
  Cleaner.mk (Cleaner.id c) (Cleaner.auth_id c) v (Cleaner.earnings_history c).

Definition requestWithdrawal (e : env) (amount : Q) : M unit :=
  match session e with
  | None => throw (Thrown "Not authenticated")
  | Some _ =>
      cleaner <- select_cleaner e ;;
      match cleaner with
      | None => throw (Thrown "Cleaner profile not found")
      | Some cleaner =>
          if Qltb (num (Cleaner.earnings_balance cleaner)) amount
          then throw (Thrown "Insufficient balance")
          else
            error <- insert_withdrawal e
              (Withdrawal.mk (Cleaner.id cleaner) amount) ;;
            match error with
            | Some err => throw (StoreError err)
            | None =>
                updateError <- update_cleaners e
                  (fun c => String.eqb (Cleaner.id c) (Cleaner.id cleaner))
                  (set_earnings_balance
                     (Some (num (Cleaner.earnings_balance cleaner) - amount)%Q)) ;;
                match updateError with
                | Some err => throw (StoreError err)
                | None => ret tt
                end
            end
      end
  end.

(** ** Dispatch queue reads (service layer) *)

Definition fetchAvailableBookings (e : env) (d : db) : list booking :=
  match select_error e with
  | Some _ => []
  | None =>
      sort_by (fun a b => scheduled_at a - scheduled_at b)
        (filter (fun b => status_eqb (status b) pending && negb (is_deleted b))
           (bookings d))
  end.

Definition fetchCleanerBookings (e : env) (d : db) : list booking :=
  match session e with
  | None => []
  | Some _ =>
      match fst (select_cleaner e d) with
      | Ok (Some cleanerProfile) =>
          match select_error e with
          | Some _ => []
          | None =>
              sort_by (fun a b => scheduled_at b - scheduled_at a)
                (filter
                   (fun b => opt_string_eqb (cleaner_id b)
                               (Cleaner.id cleanerProfile)
                             && negb (is_deleted b))
                   (bookings d))
          end
      | _ => []
      end
  end.

(** ** Dashboard: [loadOrders] (CleanerDashboard.tsx) *)

Definition currentOrders (availableBookings cleanerBookings : list booking)
  : list booking :=
  sort_by (fun a b => scheduled_at a - scheduled_at b)
    (availableBookings ++
     filter
       (fun booking =>
          negb (truthy (payment_collected_at booking))
          && negb (status_eqb (status booking) payment_verified)
          && (status_eqb (status booking) pending
              || status_eqb (status booking) picked
              || status_eqb (status booking) in_progress
              || status_eqb (status booking) paused
              || status_eqb (status booking) completed))
       cleanerBookings).

Definition historyOrders (cleanerBookings : list booking) : list booking :=
  sort_by (fun a b => getTime (completed_at b) - getTime (completed_at a))
    (filter
       (fun booking =>
          truthy (payment_collected_at booking)
          && status_eqb (status booking) payment_verified)
       cleanerBookings).

Definition completedBookings (cleanerBookings : list booking) : list booking :=
  filter (fun b => truthy (payment_collected_at b)) cleanerBookings.

Definition pendingCashout (cleanerBookings : list booking) : Q :=
  fold_left (fun sum b => (sum + amount b)%Q)
    (completedBookings cleanerBookings) 0%Q.

Definition completedJobs (cleanerBookings : list booking) : nat :=
  List.length (completedBookings cleanerBookings).

Definition ms_per_minute : Z := 1000 * 60.
Definition ms_per_hour : Z := 1000 * 60 * 60.

Definition totalHours (cleanerBookings : list booking) : Q :=
  fold_left
    (fun sum b =>
       let duration := getTime (completed_at b) - getTime (started_at b) in
       (sum + inject_Z duration / inject_Z ms_per_hour)%Q)
    (completedBookings cleanerBookings) 0%Q.

Record Orders : Type := mkOrders {
  current : list booking;
  history : list booking
}.

(** The figures of the earnings state that do not depend on the calendar
    ([today], [thisWeek] and [thisMonth] are left out). *)
Record Earnings : Type := mkEarnings {
  earnings_pendingCashout : Q;
  earnings_completedJobs : nat;
  earnings_totalHours : Q
}.

Definition loadOrders (e : env) (d : db) : Orders * Earnings :=
  let availableBookings := fetchAvailableBookings e d in
  let cleanerBookings := fetchCleanerBookings e d in
  (mkOrders (currentOrders availableBookings cleanerBookings)
     (historyOrders cleanerBookings),
   mkEarnings (pendingCashout cleanerBookings)
     (completedJobs cleanerBookings)
     (totalHours cleanerBookings)).

(** ** Duration tracker: [getJobDuration] (CleanerDashboard.tsx) *)

(** The value of the local [duration] just before it is split into hours
    and minutes.  [now_end] is the clock reading of the [new Date()] that
    stands in for a missing [completed_at], [now_pause] the later reading
    inside the [paused] branch. *)
Definition job_duration_ms (now_end now_pause : timestamp) (order : booking)
  : Z :=
  let start := getTime (started_at order) in
  let end_ := if truthy (completed_at order)
              then getTime (completed_at order) else now_end in
  let duration :=
    end_ - start - or_zero (total_pause_duration order) * 60 * 1000 in
  if status_eqb (status order) paused && truthy (paused_at order)
  then duration - (now_pause - getTime (paused_at order))
  else duration.

(** [Math.floor(duration / h)] and [Math.floor((duration % h) / m)]:
    [Z.div] rounds down like [Math.floor]; [%] truncates like [Z.rem]. *)
Definition duration_hours (duration : Z) : Z := duration / ms_per_hour.

Definition duration_minutes (duration : Z) : Z :=
  Z.rem duration ms_per_hour / ms_per_minute.

Definition format_duration (duration : Z) : string :=
  (show_int (duration_hours duration) ++ "h "
     ++ show_int (duration_minutes duration) ++ "m")%string.

Definition getJobDuration2 (now_end now_pause : timestamp) (order : booking)
  : string :=
  if negb (truthy (started_at order)) then "0h 0m"
  else format_duration (job_duration_ms now_end now_pause order).

(** [getJobDuration] with both clock readings of the call falling on the
    same instant [now].  The code reads the clock twice; what it reports
    when the readings differ is [getJobDuration2]. *)
Definition getJobDuration (now : timestamp) (order : booking) : string :=
  getJobDuration2 now now order.

(** ** The specification's wording of the hour total *)

(** Active duration of section 4.2 for a finished job:
    [(completed_at - started_at)] less [total_pause_duration] minutes. *)
Definition spec_active_duration_ms (b : booking) : Z :=
  getTime (completed_at b) - getTime (started_at b)
  - or_zero (total_pause_duration b) * ms_per_minute.

Definition spec_totalHours (cleanerBookings : list booking) : Q :=
  fold_left
    (fun sum b =>
       (sum + inject_Z (spec_active_duration_ms b) / inject_Z ms_per_hour)%Q)
    (completedBookings cleanerBookings) 0%Q.

(** ** Notions used in the statements *)

(** The predicate and the payload of the update of [pickBooking]. *)
Definition pick_matches (bookingId : string) (b : booking) : bool :=
  String.eqb (id b) bookingId && status_eqb (status b) pending
  && negb (is_deleted b).

Definition picked_by (e : env) (c : Cleaner.t) (b : booking) : booking :=
  set_picked_at (Some (now e))
    (set_status picked (set_cleaner_id (Some (Cleaner.id c)) b)).

(** [COALESCE(earnings_history, '[]')]. *)
Definition history_of (c : Cleaner.t) : list Earning.t :=
  match Cleaner.earnings_history c with Some h => h | None => [] end.

(** The data-model invariant on the pause marker. *)
Definition paused_inv (b : booking) : Prop :=
  paused_at b <> None <-> status b = paused.

(** Payment is recorded exactly on the verified rows. *)
Definition settled (b : booking) : Prop :=
  payment_collected_at b <> None <-> status b = payment_verified.

(** ... and a proof is attached to verified rows only. *)
Definition settled_row (b : booking) : Prop :=
  settled b /\ (payment_proof_url b <> None -> status b = payment_verified).

(** The filter of [fetchCleanerBookings] and that of [completedBookings]. *)
Definition mine (cid : string) (b : booking) : bool :=
  opt_string_eqb (cleaner_id b) cid && negb (is_deleted b).

Definition collected (b : booking) : bool := truthy (payment_collected_at b).

(** Sum of [amount] over the rows that satisfy [q]; sum of an integer
    quantity over rows. *)
Definition sum_if (q : booking -> bool) (l : list booking) : Q :=
  fold_right (fun b s => if q b then (amount b + s)%Q else s) 0%Q l.

Definition sumZ (f : booking -> Z) (l : list booking) : Z :=
  fold_right (fun b s => f b + s) 0 l.

Definition wall_clock_ms (b : booking) : Z :=
  getTime (completed_at b) - getTime (started_at b).

(** The public URL [uploadPaymentProof] builds, its update payload, and
    what the trigger makes of a row when it fires. *)
Definition proof_url (e : env) (bookingId file_name : string) : string :=
  (receipts_public_url e ++ "payment-proofs/"
     ++ bookingId ++ "-" ++ show_int (now e) ++ "."
     ++ split_dot_pop file_name "")%string.

Definition with_proof (e : env) (url : string) (b : booking) : booking :=
  set_payment_collected_at (Some (now e))
    (set_payment_proof_url (Some url) b).

Definition verified (ts : timestamp) (b : booking) : booking :=
  set_status payment_verified (set_payment_collected_at (Some ts) b).

(** The row [createBooking] inserts: status [pending], every column the
    insert does not name null. *)
Definition new_booking (bid sid : string) (scheduled : timestamp) (price : Q)
  : booking :=
  {| id := bid; cleaner_id := None; service_id := sid; status := pending;
     scheduled_at := scheduled; picked_at := None; started_at := None;
     paused_at := None; total_pause_duration := None; completed_at := None;
     payment_collected_at := None; payment_proof_url := None;
     amount := price; is_deleted := false |}.

(** One operation of the modelled system: a booking is created, or one of
    the service functions runs. *)
Inductive step : db -> db -> Prop :=
  | step_create d bid sid t price :
      step d (set_bookings (bookings d ++ [new_booking bid sid t price]) d)
  | step_pick e bid d : step d (snd (pickBooking e bid d))
  | step_start e bid d : step d (snd (startJob e bid d))
  | step_pause e bid d : step d (snd (pauseJob e bid d))
  | step_resume e bid d : step d (snd (resumeJob e bid d))
  | step_complete e bid d : step d (snd (completeJob e bid d))
  | step_upload e bid file_name d :
      step d (snd (uploadPaymentProof e bid file_name d))
  | step_withdraw e amount d : step d (snd (requestWithdrawal e amount d)).

(** The databases these operations build from one without bookings. *)
Inductive reachable : db -> Prop :=
  | reachable_empty d : bookings d = [] -> reachable d
  | reachable_step d d' : reachable d -> step d d' -> reachable d'.

(** ** Sample data *)

Definition minutes (n : Z) : timestamp := n * ms_per_minute.

(** Two cleaners, A with an empty account and B with a null one. *)
Definition cleaner_A : Cleaner.t := Cleaner.mk "cA" "uA" (Some 0%Q) (Some []).
Definition cleaner_B : Cleaner.t := Cleaner.mk "cB" "uB" None None.

(** A call by the user [uid] at the instant [t], the stores answering
    without error. *)
Definition env_at (uid : string) (t : timestamp) : env :=
  {| session := Some uid; now := t; current_timestamp := t;
     receipts_public_url := "https://store/receipts/";
     upload_error := None; insert_error := None; update_error := None;
     select_error := None |}.

(** One pending booking [b1], priced 500, for the service 'Home Cleaning'. *)
Definition sample_db : db :=
  {| bookings := [new_booking "b1" "s1" 0 500];
     cleaners := [cleaner_A; cleaner_B];
     services := [Service.mk "s1" "Home Cleaning"; Service.mk "s2" "Car Wash"];
     earnings_withdrawals := [] |}.

(** The database after the operations of [ops] have run in turn. *)
Fixpoint run_all (ops : list (M unit)) (d : db) : db :=
  match ops with
  | [] => d
  | op :: rest => run_all rest (snd (op d))
  end.

(** A finished job whose [completed_at] lies one hour before its
    [started_at]. *)
Definition skewed_booking : booking :=
  set_completed_at (Some 0)
    (set_started_at (Some (minutes 60))
       (set_status completed (new_booking "b1" "s1" 0 500))).

(** A job started at minute 10 and paused at minute 40. *)
Definition paused_booking : booking :=
  set_paused_at (Some (minutes 40))
    (set_started_at (Some (minutes 10))
       (set_status paused (new_booking "b1" "s1" 0 500))).

(** A booking of cleaner A whose payment was recorded while its status is
    still [completed], and a database holding it. *)
Definition unsettled_booking : booking :=
  set_payment_collected_at (Some (minutes 80))
    (set_cleaner_id (Some "cA")
       (set_status completed (new_booking "b2" "s1" 0 500))).

Definition unsettled_db : db :=
  set_bookings [unsettled_booking] sample_db.

(** A verified job that ran from minute 0 to minute 60 with 10 minutes of
    pause. *)
Definition paused_job : booking :=
  set_payment_collected_at (Some (minutes 61))
    (set_completed_at (Some (minutes 60))
       (set_total_pause_duration (Some 10)
          (set_started_at (Some 0)
             (set_cleaner_id (Some "cA")
                (set_status payment_verified
                   (new_booking "b3" "s1" 0 500)))))).

(** Booking [b1] completed by cleaner A at minute 70, no proof yet, and
    the row it then is. *)
Definition done_db : db :=
  run_all [pickBooking (env_at "uA" (minutes 0)) "b1";
           startJob (env_at "uA" (minutes 10)) "b1";
           completeJob (env_at "uA" (minutes 70)) "b1"] sample_db.

Definition done_b1 : booking :=
  set_completed_at (Some (minutes 70))
    (set_status completed
       (set_started_at (Some (minutes 10))
          (set_picked_at (Some (minutes 0))
             (set_cleaner_id (Some "cA") (new_booking "b1" "s1" 0 500))))).

(** The same database once the proof has been uploaded at minute 80. *)
Definition verified_db : db :=
  snd (uploadPaymentProof (env_at "uA" (minutes 80)) "b1" "cash.png" done_db).

(** ** Further notions: the updates of the other operations *)

(** Predicate and payload of the update of [startJob], [pauseJob],
    [resumeJob] (for the row [read] it has read, paused at [p]) and
    [completeJob]. *)
Definition start_matches (bookingId : string) (b : booking) : bool :=
  String.eqb (id b) bookingId && status_eqb (status b) picked
  && negb (is_deleted b).

Definition started_by (e : env) (b : booking) : booking :=
  set_started_at (Some (now e)) (set_status in_progress b).

Definition pause_matches (bookingId : string) (b : booking) : bool :=
  String.eqb (id b) bookingId && status_eqb (status b) in_progress
  && negb (is_deleted b).

Definition paused_by (e : env) (b : booking) : booking :=
  set_paused_at (Some (now e)) (set_status paused b).

Definition resume_matches (bookingId : string) (b : booking) : bool :=
  String.eqb (id b) bookingId && status_eqb (status b) paused
  && negb (is_deleted b).

Definition resumed_by (e : env) (read : booking) (p : timestamp)
  (b : booking) : booking :=
  set_total_pause_duration
    (Some (or_zero (total_pause_duration read)
           + (now e - p) / (1000 * 60)))
    (set_paused_at None (set_status in_progress b)).

Definition complete_matches (bookingId : string) (b : booking) : bool :=
  String.eqb (id b) bookingId
  && (status_eqb (status b) in_progress || status_eqb (status b) paused)
  && negb (is_deleted b).

Definition completed_by (e : env) (b : booking) : booking :=
  set_completed_at (Some (now e)) (set_status completed b).

Definition id_matches (bookingId : string) (b : booking) : bool :=
  String.eqb (id b) bookingId.

(** The nullable columns a row has set, by status. *)
Definition lifecycle_inv (b : booking) : Prop :=
  match status b with
  | pending =>
      cleaner_id b = None /\ picked_at b = None /\ started_at b = None
      /\ paused_at b = None /\ total_pause_duration b = None
      /\ completed_at b = None
  | picked =>
      cleaner_id b <> None /\ picked_at b <> None /\ started_at b = None
      /\ paused_at b = None /\ total_pause_duration b = None
      /\ completed_at b = None
  | in_progress =>
      cleaner_id b <> None /\ picked_at b <> None /\ started_at b <> None
      /\ paused_at b = None /\ completed_at b = None
  | paused =>
      cleaner_id b <> None /\ picked_at b <> None /\ started_at b <> None
      /\ paused_at b <> None /\ completed_at b = None
  | completed =>
      cleaner_id b <> None /\ picked_at b <> None /\ started_at b <> None
      /\ completed_at b <> None
  | payment_verified =>
      payment_collected_at b <> None /\ payment_proof_url b <> None
  end
  /\ (status b <> payment_verified ->
      payment_collected_at b = None /\ payment_proof_url b = None).


(** The two sides of a cleaner's account: what the history records as
    earned, and what the withdrawals of that cleaner add up to. *)
Definition credited (c : Cleaner.t) : Q :=
  fold_right (fun entry s => (Earning.amount entry + s)%Q) 0%Q (history_of c).

Definition withdrawn (cid : string) (ws : list Withdrawal.t) : Q :=
  fold_right
    (fun w s =>
       if String.eqb (Withdrawal.cleaner_id w) cid
       then (Withdrawal.amount w + s)%Q else s)
    0%Q ws.

Definition ledger_ok (d : db) : Prop :=
  forall c, In c (cleaners d) ->
    num (Cleaner.earnings_balance c)
    == credited c - withdrawn (Cleaner.id c) (earnings_withdrawals d).

(** A later state of a cleaner's row: same identity, history extended. *)
Definition extends (c c' : Cleaner.t) : Prop :=
  Cleaner.id c' = Cleaner.id c /\ Cleaner.auth_id c' = Cleaner.auth_id c
  /\ exists added, history_of c' = (history_of c ++ added)%list.

(** ** Further notions: earnings buckets and the dashboard's actions *)

(** An earnings bucket of [loadOrders]: the sum of [amount] over the
    bookings whose payment was collected at or after [start].  The three
    buckets [today], [thisWeek] and [thisMonth] are this sum for the
    instants [startOfDay], [startOfWeek] and [startOfMonth] the code
    computes with [Date]. *)
Definition earnings_since (start : timestamp) (cleanerBookings : list booking)
  : Q :=
  fold_left (fun sum b => (sum + amount b)%Q)
    (filter (fun b => start <=? getTime (payment_collected_at b))
       (completedBookings cleanerBookings))
    0%Q.

(** The buttons of an order card. *)
Inductive action : Type :=
  | PickJob
  | StartJob
  | PauseJob
  | ResumeJob
  | CompleteJob
  | UploadPaymentProof.

(** The condition under which the card shows the button and the button is
    enabled.  Fetched rows carry no [isPaused], so [!order.isPaused]
    holds. *)
Definition offered (order : booking) (a : action) : bool :=
  match a with
  | PickJob => status_eqb (status order) pending
  | StartJob => status_eqb (status order) picked
  | PauseJob => status_eqb (status order) in_progress && negb false
  | ResumeJob => status_eqb (status order) paused
  | CompleteJob =>
      status_eqb (status order) in_progress
      || status_eqb (status order) paused
  | UploadPaymentProof =>
      status_eqb (status order) completed
      && negb (truthy (payment_collected_at order))
      && negb (truthy (payment_proof_url order)
               || truthy (payment_collected_at order))
  end.

Record toast : Type := mkToast {
  title : string;
  description : string
}.

(** The shape of the six handlers: run the service function; when it
    returns, reload the orders and show the success toast; when it throws,
    show the error toast.  The result is the toast, the reloaded state if
    any, and the database. *)
Definition handler {A} (e : env) (op : M A) (success failure : toast)
  : db -> toast * option (Orders * Earnings) * db :=
  fun d =>
    match op d with
    | (Ok _, d') => (success, Some (loadOrders e d'), d')
    | (Err _, d') => (failure, None, d')
    end.

Definition handlePickBooking (e : env) (orderId : string) :=
  handler e (pickBooking e orderId)
    (mkToast "Success" "Booking picked successfully")
    (mkToast "Error" "Failed to pick booking").

Definition handleStartJob (e : env) (orderId : string) :=
  handler e (startJob e orderId)
    (mkToast "Job Started" "Timer has been started for this job.")
    (mkToast "Error" "Failed to start job").

Definition handlePauseJob (e : env) (orderId : string) :=
  handler e (pauseJob e orderId)
    (mkToast "Job Paused" "Timer has been paused.")
    (mkToast "Error" "Failed to pause job").

Definition handleResumeJob (e : env) (orderId : string) :=
  handler e (resumeJob e orderId)
    (mkToast "Job Resumed" "Timer has been resumed.")
    (mkToast "Error" "Failed to resume job").

Definition handleCompleteJob (e : env) (orderId : string) :=
  handler e (completeJob e orderId)
    (mkToast "Job Completed"
       "Great work! The job has been marked as completed.")
    (mkToast "Error" "Failed to complete job").

Definition handleMoneyCollected (e : env) (orderId file_name : string) :=
  handler e (uploadPaymentProof e orderId file_name)
    (mkToast "Payment Proof Uploaded"
       "Payment proof has been uploaded successfully.")
    (mkToast "Error" "Failed to upload payment proof").

(** What a click on the button of an order runs. *)
Definition click (e : env) (a : action) (orderId file_name : string)
  : db -> toast * option (Orders * Earnings) * db :=
  match a with
  | PickJob => handlePickBooking e orderId
  | StartJob => handleStartJob e orderId
  | PauseJob => handlePauseJob e orderId
  | ResumeJob => handleResumeJob e orderId
  | CompleteJob => handleCompleteJob e orderId
  | UploadPaymentProof => handleMoneyCollected e orderId file_name
  end.

(** The status the button stands for. *)
Definition target (a : action) : booking_status :=
  match a with
  | PickJob => picked
  | StartJob => in_progress
  | PauseJob => paused
  | ResumeJob => in_progress
  | CompleteJob => completed
  | UploadPaymentProof => payment_verified
  end.

(** How [total_pause_duration] may differ between a row and what the call
    [resumeJob e _] makes of it: not at all, or, for an undeleted paused
    row, by the whole minutes from its [paused_at] to the clock reading
    [now e] of that call. *)
Definition pause_total_step (e : env) (b b' : booking) : Prop :=
  total_pause_duration b' = total_pause_duration b
  \/ exists p,
       status b = paused /\ is_deleted b = false
       /\ paused_at b = Some p
       /\ status b' = in_progress /\ paused_at b' = None
       /\ total_pause_duration b'
          = Some (or_zero (total_pause_duration b)
                  + (now e - p) / ms_per_minute).

(** * Theorems *)

(** ** Basic facts *)

Lemma status_eqb_eq a b : status_eqb a b = true <-> a = b.
Proof. destruct a, b; simpl; split; intro H; congruence. Qed.

Lemma status_eqb_neq a b : status_eqb a b = false <-> a <> b.
Proof. destruct a, b; simpl; split; intro H; congruence. Qed.

Lemma set_bookings_same d : set_bookings (bookings d) d = d.
Proof. now destruct d. Qed.

Lemma update_where_none {A} (p : A -> bool) f rows :
  (forall r, In r rows -> p r = false) -> update_where p f rows = rows.
Proof.
  induction rows as [|r rows IH]; simpl; intro H; [reflexivity|].
  rewrite (H r (or_introl eq_refl)), IH; auto.
Qed.

Lemma in_update_where {A} (p : A -> bool) f rows r :
  In r rows -> In (if p r then f r else r) (update_where p f rows).
Proof. intro H. unfold update_where. now apply (in_map (fun r => if p r then f r else r)). Qed.

Lemma select_cleaner_session e d c :
  select_cleaner e d = (Ok (Some c), d) -> exists uid, session e = Some uid.
Proof.
  unfold select_cleaner. destruct (session e) as [uid|]; [eauto|].
  intro H; discriminate H.
Qed.

Lemma select_cleaner_bookings e d rows :
  select_cleaner e (set_bookings rows d) =
  (fst (select_cleaner e d), set_bookings rows d).
Proof.
  unfold select_cleaner.
  destruct (session e), (select_error e); reflexivity.
Qed.

(** ** Duration tracker *)

Lemma duration_parts_nonneg d :
  0 <= d -> 0 <= duration_hours d /\ 0 <= duration_minutes d < 60.
Proof.
  intro Hd. unfold duration_hours, duration_minutes, ms_per_hour, ms_per_minute.
  rewrite Z.rem_mod_nonneg by lia.
  pose proof (Z.mod_pos_bound d (1000 * 60 * 60) ltac:(lia)) as Hm.
  repeat split.
  - apply Z.div_pos; lia.
  - apply Z.div_pos; lia.
  - apply Z.div_lt_upper_bound; lia.
Qed.

Lemma duration_hours_neg d : d < 0 -> duration_hours d < 0.
Proof.
  intro Hd. unfold duration_hours, ms_per_hour.
  apply Z.div_lt_upper_bound; lia.
Qed.

(** C8, counterexample: with [completed_at] one hour before [started_at]
    the computed duration is negative and the reported text is ["-1h 0m"],
    not the clamped ["0h 0m"]. *)
Lemma getJobDuration_negative_not_clamped :
  job_duration_ms 0 0 skewed_booking < 0 /\
  getJobDuration 0 skewed_booking = "-1h 0m" /\
  getJobDuration 0 skewed_booking <> "0h 0m".
Proof.
  split; [reflexivity|]. split; [reflexivity|].
  vm_compute. discriminate.
Qed.

(** C8, amended: [getJobDuration] formats the hours and minutes of the
    computed active duration without any clamp; when that duration is
    non-negative the hours are non-negative and the minutes lie in 0..59,
    and when it is negative the reported hours are negative. *)
Theorem getJobDuration_sign (t : timestamp) (order : booking) :
  started_at order <> None ->
  let d := job_duration_ms t t order in
  getJobDuration t order
    = (show_int (duration_hours d) ++ "h "
         ++ show_int (duration_minutes d) ++ "m")%string
  /\ (0 <= d -> 0 <= duration_hours d /\ 0 <= duration_minutes d < 60)
  /\ (d < 0 -> duration_hours d < 0).
Proof.
  intros Hs d. split; [|split].
  - unfold getJobDuration, getJobDuration2.
    destruct (started_at order); [reflexivity | congruence].
  - apply duration_parts_nonneg.
  - apply duration_hours_neg.
Qed.

Lemma getJobDuration_sign_witness :
  started_at skewed_booking <> None /\
  getJobDuration 0 skewed_booking = "-1h 0m".
Proof.
  split; [discriminate|].
  exact (proj1 (getJobDuration_sign 0 skewed_booking ltac:(discriminate))).
Defined.

(** While a job is paused and unfinished, the computed duration is
    [paused_at - started_at] less the committed pause minutes, up to the
    time between the two clock readings of the call. *)
Lemma job_duration_ms_paused now_end now_pause order p :
  status order = paused -> paused_at order = Some p ->
  completed_at order = None ->
  job_duration_ms now_end now_pause order
  = p - getTime (started_at order)
    - or_zero (total_pause_duration order) * 60 * 1000
    - (now_pause - now_end).
Proof.
  intros Hst Hp Hc. unfold job_duration_ms.
  rewrite Hst, Hp, Hc. simpl. lia.
Qed.

(** When the two clock readings of the call coincide, the text reported
    for a paused, unfinished booking is the same at every instant. *)
Lemma getJobDuration_same_reading (order : booking) (p t : timestamp) :
  status order = paused ->
  paused_at order = Some p ->
  completed_at order = None ->
  getJobDuration2 t t order = getJobDuration2 p p order.
Proof.
  intros Hst Hp Hc. unfold getJobDuration2.
  destruct (truthy (started_at order)); simpl; [|reflexivity].
  now rewrite !(job_duration_ms_paused _ _ order p Hst Hp Hc), !Z.sub_diag.
Qed.

(** C9, the failing run: a booking started at minute 10 and paused at
    minute 40 (nothing committed to [total_pause_duration], not completed)
    shows ["0h 30m"] at the moment of pausing; rendered at minute 100 with
    the second [new Date()] one millisecond after the first, it shows
    ["0h 29m"].  The two readings do not cancel: the reported duration is
    the frozen one less the time between them. *)
Theorem getJobDuration_paused_clock_drift :
  status paused_booking = paused
  /\ paused_at paused_booking = Some (minutes 40)
  /\ completed_at paused_booking = None
  /\ getJobDuration2 (minutes 40) (minutes 40) paused_booking = "0h 30m"
  /\ getJobDuration2 (minutes 100) (minutes 100 + 1) paused_booking = "0h 29m"
  /\ forall t1 t2,
       job_duration_ms t1 t2 paused_booking = minutes 30 - (t2 - t1).
Proof.
  do 5 (split; [vm_compute; reflexivity|]).
  intros t1 t2.
  rewrite (job_duration_ms_paused t1 t2 paused_booking (minutes 40)
             eq_refl eq_refl eq_refl).
  change (getTime (started_at paused_booking)) with (minutes 10).
  change (or_zero (total_pause_duration paused_booking)) with 0.
  unfold minutes, ms_per_minute. lia.
Qed.

(** ** Pickup *)

Lemma pickBooking_run e d bookingId c :
  select_cleaner e d = (Ok (Some c), d) ->
  update_error e = None ->
  pickBooking e bookingId d
  = (Ok tt,
     set_bookings
       (update_where (pick_matches bookingId) (picked_by e c) (bookings d)) d).
Proof.
  intros Hc Hu. destruct (select_cleaner_session _ _ _ Hc) as [uid Hs].
  unfold pickBooking. rewrite Hs. unfold bind at 1. rewrite Hc.
  unfold bind, update_bookings. rewrite Hu. reflexivity.
Qed.

(** A pickup that finds no pending, undeleted row of that id changes
    nothing and reports nothing. *)
Lemma pickBooking_no_match e d bookingId c :
  select_cleaner e d = (Ok (Some c), d) ->
  update_error e = None ->
  (forall b, In b (bookings d) -> id b = bookingId ->
             status b <> pending \/ is_deleted b = true) ->
  pickBooking e bookingId d = (Ok tt, d).
Proof.
  intros Hc Hu Hno. rewrite (pickBooking_run _ _ _ _ Hc Hu).
  rewrite update_where_none; [now rewrite set_bookings_same|].
  intros b Hin. unfold pick_matches.
  destruct (String.eqb_spec (id b) bookingId) as [Hid|]; [|reflexivity].
  destruct (Hno b Hin Hid) as [Hst|Hdel].
  - apply status_eqb_neq in Hst. now rewrite Hst.
  - rewrite Hdel. now rewrite andb_false_r.
Qed.

(** C1, counterexample: after cleaner A has picked booking [b1], the pickup
    of the same booking by cleaner B matches no row, leaves the database as
    it is, and returns normally: no error reaches the caller. *)
Lemma pickBooking_second_pick_returns_ok :
  let d1 := snd (pickBooking (env_at "uA" 1) "b1" sample_db) in
  map status (bookings d1) = [picked] /\
  pickBooking (env_at "uB" 2) "b1" d1 = (Ok tt, d1) /\
  forall err, fst (pickBooking (env_at "uB" 2) "b1" d1) <> Err err.
Proof.
  split; [reflexivity|]. split; [reflexivity|].
  intros err H. vm_compute in H. discriminate H.
Qed.

(** C1, amended: a pickup of a booking that is not pending (or is
    soft-deleted) matches zero rows, leaves the database unchanged and
    returns without an error, so the caller is not told of the conflict;
    when two cleaners pick the same pending booking one after the other,
    the first pickup assigns the booking to its caller and the second is
    such a silent no-op. *)
Theorem pickBooking_conflict_is_silent (eA eB : env) (d : db)
  (bookingId : string) (cA cB : Cleaner.t) :
  select_cleaner eA d = (Ok (Some cA), d) ->
  select_cleaner eB d = (Ok (Some cB), d) ->
  update_error eA = None ->
  update_error eB = None ->
  ((forall b, In b (bookings d) -> id b = bookingId ->
              status b <> pending \/ is_deleted b = true) ->
   pickBooking eB bookingId d = (Ok tt, d))
  /\
  (let d1 := snd (pickBooking eA bookingId d) in
   fst (pickBooking eA bookingId d) = Ok tt
   /\ (forall b, In b (bookings d) -> id b = bookingId ->
                 status b = pending -> is_deleted b = false ->
                 In (picked_by eA cA b) (bookings d1))
   /\ (forall b, In b (bookings d) -> pick_matches bookingId b = false ->
                 In b (bookings d1))
   /\ pickBooking eB bookingId d1 = (Ok tt, d1)).
Proof.
  intros HA HB HuA HuB. split.
  - now apply pickBooking_no_match with (c := cB).
  - rewrite (pickBooking_run _ _ _ _ HA HuA). cbn [fst snd].
    split; [reflexivity|]. split; [|split].
    + intros b Hin Hid Hst Hdel. cbn [bookings set_bookings].
      pose proof (in_update_where (pick_matches bookingId) (picked_by eA cA)
                    _ _ Hin) as H.
      unfold pick_matches at 1 in H.
      rewrite Hid, String.eqb_refl, Hst, Hdel in H. exact H.
    + intros b Hin Hm. cbn [bookings set_bookings].
      pose proof (in_update_where (pick_matches bookingId) (picked_by eA cA)
                    _ _ Hin) as H.
      now rewrite Hm in H.
    + apply pickBooking_no_match with (c := cB); [|assumption|].
      * rewrite select_cleaner_bookings, HB. reflexivity.
      * cbn [bookings set_bookings]. intros b Hin Hid.
        unfold update_where in Hin. apply in_map_iff in Hin.
        destruct Hin as [b0 [Hb0 _]].
        destruct (pick_matches bookingId b0) eqn:Hm0.
        -- subst b. left. discriminate.
        -- subst b0. unfold pick_matches in Hm0. rewrite Hid, String.eqb_refl in Hm0.
           simpl in Hm0. destruct (status_eqb (status b) pending) eqn:Hst.
           ++ right. simpl in Hm0. now destruct (is_deleted b).
           ++ left. now apply status_eqb_neq.
Qed.

Lemma pickBooking_conflict_is_silent_witness :
  let d1 := snd (pickBooking (env_at "uA" 1) "b1" sample_db) in
  In (picked_by (env_at "uA" 1) cleaner_A (new_booking "b1" "s1" 0 500))
     (bookings d1)
  /\ pickBooking (env_at "uB" 2) "b1" d1 = (Ok tt, d1).
Proof.
  pose proof (pickBooking_conflict_is_silent (env_at "uA" 1) (env_at "uB" 2)
                sample_db "b1" cleaner_A cleaner_B
                eq_refl eq_refl eq_refl eq_refl) as [_ [_ [H1 [_ H2]]]].
  split; [|exact H2].
  apply H1; [left; reflexivity | reflexivity | reflexivity | reflexivity].
Defined.

(** ** Payment verification trigger *)

Lemma opt_string_eqb_eq x y : opt_string_eqb x y = true <-> x = Some y.
Proof.
  destruct x as [s|]; simpl; [|split; discriminate].
  rewrite String.eqb_eq. split; congruence.
Qed.

Lemma trigger_fires ts ss cs OLD NEW :
  payment_proof_url OLD = None -> payment_proof_url NEW <> None ->
  verify_payment_and_update_earnings ts ss cs OLD NEW
  = (set_status payment_verified (set_payment_collected_at (Some ts) NEW),
     update_where (fun c => opt_string_eqb (cleaner_id NEW) (Cleaner.id c))
       (credit (earnings_entry ts (service_name_of ss (service_id NEW)) NEW))
       cs).
Proof.
  intros Ho Hn. unfold verify_payment_and_update_earnings.
  rewrite Ho. destruct (payment_proof_url NEW); [reflexivity | congruence].
Qed.

Lemma trigger_idle ts ss cs OLD NEW :
  payment_proof_url OLD <> None ->
  verify_payment_and_update_earnings ts ss cs OLD NEW = (NEW, cs).
Proof.
  intro Ho. unfold verify_payment_and_update_earnings.
  destruct (payment_proof_url OLD); [|congruence].
  now rewrite andb_false_r.
Qed.

(** C2: on the edge from a null to a non-null [payment_proof_url] the
    trigger writes [payment_collected_at = CURRENT_TIMESTAMP] and
    [status = payment_verified] into the row, and in the same step credits
    the cleaner the row is assigned to with 150 when the service is named
    ['Car Wash'] and 200 otherwise, appending the one entry
    [{booking_id, amount, service, earned_at}] to that cleaner's history and
    leaving every other cleaner alone; when the old [payment_proof_url] is
    already non-null the row and the cleaners are left as they are. *)
Theorem verify_payment_trigger_edge (ts : timestamp) (ss : list Service.t)
  (cs : list Cleaner.t) (OLD NEW : booking) :
  let NEW' := fst (verify_payment_and_update_earnings ts ss cs OLD NEW) in
  let cs' := snd (verify_payment_and_update_earnings ts ss cs OLD NEW) in
  let service_name := service_name_of ss (service_id NEW) in
  let rate := if opt_string_eqb service_name "Car Wash"
              then 150%Q else 200%Q in
  (payment_proof_url OLD = None -> payment_proof_url NEW <> None ->
   payment_collected_at NEW' = Some ts
   /\ status NEW' = payment_verified
   /\ payment_proof_url NEW' = payment_proof_url NEW
   /\ List.length cs' = List.length cs
   /\ forall i c, nth_error cs i = Some c ->
        exists c', nth_error cs' i = Some c'
          /\ Cleaner.id c' = Cleaner.id c
          /\ (cleaner_id NEW = Some (Cleaner.id c) ->
              Cleaner.earnings_balance c'
              = Some (num (Cleaner.earnings_balance c) + rate)%Q
              /\ Cleaner.earnings_history c'
                 = Some (history_of c
                           ++ [Earning.mk (id NEW) rate service_name ts])%list)
          /\ (cleaner_id NEW <> Some (Cleaner.id c) -> c' = c))
  /\
  (payment_proof_url OLD <> None -> NEW' = NEW /\ cs' = cs).
Proof.
  intros NEW' cs' service_name rate. split.
  - intros Ho Hn. subst NEW' cs'. rewrite (trigger_fires _ _ _ _ _ Ho Hn).
    cbn [fst snd]. repeat split.
    + unfold update_where. now rewrite length_map.
    + intros i c Hi.
      exists (if opt_string_eqb (cleaner_id NEW) (Cleaner.id c)
              then credit (earnings_entry ts service_name NEW) c else c).
      split.
      * unfold update_where.
        now rewrite (map_nth_error _ _ _ Hi).
      * destruct (opt_string_eqb (cleaner_id NEW) (Cleaner.id c)) eqn:E.
        -- apply opt_string_eqb_eq in E.
           split; [reflexivity|]. split; [|contradiction].
           intros _. split; reflexivity.
        -- split; [reflexivity|]. split; [|reflexivity].
           intro Hc. apply opt_string_eqb_eq in Hc. congruence.
  - intro Ho. subst NEW' cs'. now rewrite (trigger_idle _ _ _ _ _ Ho).
Qed.

Lemma verify_payment_trigger_edge_witness :
  let OLD := set_cleaner_id (Some "cA")
               (set_status completed (new_booking "b1" "s2" 0 500)) in
  let NEW := set_payment_proof_url (Some "proof.png") OLD in
  exists c', nth_error
               (snd (verify_payment_and_update_earnings 7
                       (services sample_db) (cleaners sample_db) OLD NEW)) 0
             = Some c'
    /\ Cleaner.earnings_balance c' = Some (0 + 150)%Q
    /\ Cleaner.earnings_history c'
       = Some [Earning.mk "b1" 150%Q (Some "Car Wash") 7].
Proof.
  intros OLD NEW.
  destruct (proj1 (verify_payment_trigger_edge 7 (services sample_db)
                     (cleaners sample_db) OLD NEW)
              eq_refl ltac:(discriminate))
    as [_ [_ [_ [_ H]]]].
  destruct (H 0%nat cleaner_A eq_refl) as [c' [Hn [_ [Hc _]]]].
  exists c'. split; [exact Hn|]. exact (Hc eq_refl).
Defined.

(** ** The pause marker along the lifecycle *)

Lemma Forall_update_where {A} (P : A -> Prop) p f rows :
  Forall P rows -> (forall r, P r -> p r = true -> P (f r)) ->
  Forall P (update_where p f rows).
Proof.
  intros H Hf. unfold update_where. apply Forall_map.
  apply Forall_impl with (2 := H). intros r Hr.
  destruct (p r) eqn:E; auto.
Qed.

Lemma update_bookings_Forall (P : booking -> Prop) e p f d :
  Forall P (bookings d) -> (forall b, P b -> p b = true -> P (f b)) ->
  Forall P (bookings (snd (update_bookings e p f d))).
Proof.
  intros H Hf. unfold update_bookings.
  destruct (update_error e); cbn [snd]; [exact H|].
  cbn [bookings set_bookings]. now apply Forall_update_where.
Qed.

Lemma snd_update_then_throw e p f d :
  snd ((error <- update_bookings e p f ;;
        match error with
        | Some err => throw (StoreError err)
        | None => ret tt
        end) d)
  = snd (update_bookings e p f d).
Proof.
  unfold bind, update_bookings. now destruct (update_error e).
Qed.

Lemma and3_true a b c : a && b && c = true -> a = true /\ b = true /\ c = true.
Proof. destruct a, b, c; simpl; intuition congruence. Qed.

(** Pickup, start, pause and resume keep [paused_at] set exactly on the
    paused rows. *)
Lemma pickBooking_paused_inv e bookingId d :
  Forall paused_inv (bookings d) ->
  Forall paused_inv (bookings (snd (pickBooking e bookingId d))).
Proof.
  intro H. unfold pickBooking. destruct (session e); [|exact H].
  unfold bind at 1. unfold select_cleaner.
  destruct (session e), (select_error e); try exact H.
  destruct (single _) as [c|]; [|exact H].
  rewrite snd_update_then_throw. apply update_bookings_Forall; [exact H|].
  intros b Hb Hm. apply and3_true in Hm. destruct Hm as [_ [Hst _]].
  apply status_eqb_eq in Hst. unfold paused_inv in *; simpl.
  rewrite Hst in Hb. split; intro H0; [|discriminate].
  apply Hb in H0. discriminate.
Qed.

Lemma startJob_paused_inv e bookingId d :
  Forall paused_inv (bookings d) ->
  Forall paused_inv (bookings (snd (startJob e bookingId d))).
Proof.
  intro H. unfold startJob. rewrite snd_update_then_throw.
  apply update_bookings_Forall; [exact H|].
  intros b Hb Hm. apply and3_true in Hm. destruct Hm as [_ [Hst _]].
  apply status_eqb_eq in Hst. unfold paused_inv in *; simpl.
  rewrite Hst in Hb. split; intro H0; [|discriminate].
  apply Hb in H0. discriminate.
Qed.

Lemma pauseJob_paused_inv e bookingId d :
  Forall paused_inv (bookings d) ->
  Forall paused_inv (bookings (snd (pauseJob e bookingId d))).
Proof.
  intro H. unfold pauseJob. rewrite snd_update_then_throw.
  apply update_bookings_Forall; [exact H|].
  intros b Hb Hm. unfold paused_inv; simpl. split; [reflexivity|discriminate].
Qed.

Lemma resumeJob_paused_inv e bookingId d :
  Forall paused_inv (bookings d) ->
  Forall paused_inv (bookings (snd (resumeJob e bookingId d))).
Proof.
  intro H. unfold resumeJob. unfold bind at 1. unfold select_booking.
  destruct (single _) as [b0|]; [|exact H].
  destruct (paused_at b0); [|exact H].
  rewrite snd_update_then_throw. apply update_bookings_Forall; [exact H|].
  intros b Hb Hm. unfold paused_inv; simpl.
  split; [congruence | discriminate].
Qed.

(** Completion keeps it on every row it does not complete from [paused]. *)
Lemma completeJob_paused_inv e bookingId d :
  Forall paused_inv (bookings d) ->
  (forall b, In b (bookings d) -> id b = bookingId -> status b <> paused) ->
  Forall paused_inv (bookings (snd (completeJob e bookingId d))).
Proof.
  intros H Hnp. unfold completeJob. rewrite snd_update_then_throw.
  unfold update_bookings. destruct (update_error e); cbn [snd]; [exact H|].
  cbn [bookings set_bookings]. unfold update_where.
  apply Forall_map. apply Forall_forall. intros b Hin.
  pose proof (proj1 (Forall_forall _ _) H b Hin) as Hb.
  destruct (String.eqb_spec (id b) bookingId) as [Hid|]; [|exact Hb].
  cbn [andb].
  destruct (status_eqb (status b) in_progress) eqn:Hip.
  - cbn [orb andb]. destruct (is_deleted b); cbn [negb]; [exact Hb|].
    apply status_eqb_eq in Hip. unfold paused_inv in *; simpl.
    rewrite Hip in Hb. split; intro H0; [|discriminate].
    apply Hb in H0. discriminate.
  - cbn [orb]. destruct (status_eqb (status b) paused) eqn:Hp; [|exact Hb].
    apply status_eqb_eq in Hp. now destruct (Hnp b Hin Hid).
Qed.

(** C3, the failing run: cleaner A picks booking [b1], starts it at minute
    10 and pauses it at minute 40; completing it at minute 70 succeeds and
    leaves the row with status [completed] and [paused_at] still set. *)
Theorem completeJob_from_paused_keeps_paused_at :
  let d := run_all [pickBooking (env_at "uA" (minutes 0)) "b1";
                    startJob (env_at "uA" (minutes 10)) "b1";
                    pauseJob (env_at "uA" (minutes 40)) "b1"] sample_db in
  let r := completeJob (env_at "uA" (minutes 70)) "b1" d in
  map status (bookings d) = [paused]
  /\ Forall paused_inv (bookings d)
  /\ fst r = Ok tt
  /\ map status (bookings (snd r)) = [completed]
  /\ map paused_at (bookings (snd r)) = [Some (minutes 40)]
  /\ ~ Forall paused_inv (bookings (snd r)).
Proof.
  cbv zeta. split; [reflexivity|]. split.
  - repeat constructor; discriminate.
  - split; [reflexivity|]. split; [reflexivity|]. split; [reflexivity|].
    intro H. vm_compute in H. inversion H as [|b l Hb _]; subst.
    destruct Hb as [Hb _]. specialize (Hb ltac:(discriminate)). discriminate.
Qed.

(** ** Dispatch queue: current and history *)

Lemma in_insert_by {A} (cmp : A -> A -> Z) x y l :
  In y (insert_by cmp x l) <-> y = x \/ In y l.
Proof.
  induction l as [|z l IH]; simpl.
  - intuition congruence.
  - destruct (cmp x z <=? 0); simpl; [intuition congruence|].
    rewrite IH. intuition congruence.
Qed.

Lemma in_sort_by {A} (cmp : A -> A -> Z) y l :
  In y (sort_by cmp l) <-> In y l.
Proof.
  induction l as [|x l IH]; simpl; [reflexivity|].
  rewrite in_insert_by, IH. intuition congruence.
Qed.

Lemma fetchAvailableBookings_pending e d b :
  In b (fetchAvailableBookings e d) -> status b = pending.
Proof.
  unfold fetchAvailableBookings. destruct (select_error e); [intros []|].
  rewrite in_sort_by, filter_In. intros [_ H].
  apply andb_prop in H. now apply status_eqb_eq.
Qed.

(** The two lists of the dashboard, for any two fetched arrays of which
    the first holds pending bookings only. *)
Lemma current_history_split available mine b :
  (forall a, In a available -> status a = pending) ->
  In b (available ++ mine) ->
  ~ (In b (currentOrders available mine) /\ In b (historyOrders mine))
  /\ (settled b ->
      In b (currentOrders available mine) \/ In b (historyOrders mine)).
Proof.
  intros Hav Hin. unfold currentOrders, historyOrders.
  rewrite !in_sort_by, in_app_iff, !filter_In. split.
  - intros [[Ha | [_ Hc]] [_ Hh]].
    + apply andb_prop in Hh. destruct Hh as [_ Hv].
      apply status_eqb_eq in Hv. rewrite (Hav b Ha) in Hv. discriminate.
    + apply andb_prop in Hh. destruct Hh as [Ht _].
      rewrite Ht in Hc. discriminate.
  - intros [Hs1 Hs2]. apply in_app_iff in Hin.
    destruct Hin as [Ha | Hm]; [left; now left|].
    destruct (payment_collected_at b) as [t|] eqn:Hp.
    + right. split; [exact Hm|]. rewrite Hs1 by discriminate. reflexivity.
    + left. right. split; [exact Hm|]. cbn [truthy negb andb].
      destruct (status b); try reflexivity.
      now destruct Hs2.
Qed.

(** Outside the databases the operations build, the side condition of the
    lemma below matters: a booking of the cleaner with
    [payment_collected_at] set and status [completed] is in neither list. *)
Lemma unsettled_booking_in_neither_list :
  let e := env_at "uA" (minutes 90) in
  let orders := fst (loadOrders e unsettled_db) in
  In unsettled_booking
     (fetchAvailableBookings e unsettled_db ++ fetchCleanerBookings e unsettled_db)
  /\ ~ In unsettled_booking (current orders)
  /\ ~ In unsettled_booking (history orders).
Proof.
  cbv zeta. split; [left; reflexivity|].
  split; intro H; vm_compute in H; exact H.
Qed.

(** For rows of any kind: no fetched booking is in both the current and the
    history list, and a fetched booking is in one of them provided its
    [payment_collected_at] is non-null exactly when its status is
    [payment_verified]. *)
Lemma current_history_partition (e : env) (d : db) (b : booking) :
  let orders := fst (loadOrders e d) in
  In b (fetchAvailableBookings e d ++ fetchCleanerBookings e d) ->
  ~ (In b (current orders) /\ In b (history orders))
  /\ ((payment_collected_at b <> None <-> status b = payment_verified) ->
      In b (current orders) \/ In b (history orders)).
Proof.
  intros orders Hin. subst orders. unfold loadOrders. cbn [fst current history].
  apply current_history_split; [|exact Hin].
  intros a. apply fetchAvailableBookings_pending.
Qed.

Lemma current_history_partition_witness :
  let e := env_at "uA" (minutes 90) in
  let b := new_booking "b1" "s1" 0 500 in
  In b (current (fst (loadOrders e sample_db)))
  \/ In b (history (fst (loadOrders e sample_db))).
Proof.
  intros e b.
  apply (current_history_partition e sample_db b).
  - left. reflexivity.
  - split; [intro H; now contradiction H | discriminate].
Defined.

(** ** Hour total *)

Lemma fold_hours (f : booking -> Z) l (a : Q) :
  fold_left (fun sum b => (sum + inject_Z (f b) / inject_Z ms_per_hour)%Q) l a
  == a + inject_Z (sumZ f l) / inject_Z ms_per_hour.
Proof.
  revert a. induction l as [|b l IH]; intro a; simpl.
  - unfold Qdiv. rewrite Qmult_0_l. ring.
  - rewrite IH, inject_Z_plus. unfold ms_per_hour. field. discriminate.
Qed.

Lemma sumZ_spec_active l :
  sumZ spec_active_duration_ms l
  = sumZ wall_clock_ms l
    - sumZ (fun b => or_zero (total_pause_duration b)) l * ms_per_minute.
Proof.
  induction l as [|b l IH]; simpl; [reflexivity|].
  rewrite IH. unfold spec_active_duration_ms, wall_clock_ms. lia.
Qed.

(** C7, counterexample: for one verified job of 60 minutes with 10 minutes
    of pause the dashboard total is 1 hour, the active duration 5/6 hour. *)
Lemma totalHours_ignores_pauses :
  totalHours [paused_job] == 1
  /\ spec_totalHours [paused_job] == 5 # 6
  /\ ~ totalHours [paused_job] == spec_totalHours [paused_job].
Proof.
  split; [reflexivity|]. split; [reflexivity|].
  intro H. vm_compute in H. discriminate H.
Qed.

(** C7, amended: [totalHours] is the sum, over the cleaner's bookings with
    non-null [payment_collected_at], of [completed_at - started_at]
    converted to hours, with no pause subtracted; it exceeds the total of
    the active durations by the bookings' pause minutes over 60. *)
Theorem totalHours_wall_clock (cleanerBookings : list booking) :
  let paid := completedBookings cleanerBookings in
  totalHours cleanerBookings
  == inject_Z (sumZ wall_clock_ms paid) / inject_Z ms_per_hour
  /\ totalHours cleanerBookings
     == spec_totalHours cleanerBookings
        + inject_Z (sumZ (fun b => or_zero (total_pause_duration b)) paid)
          / 60.
Proof.
  intro paid. unfold totalHours, spec_totalHours. fold paid.
  pose proof (fold_hours wall_clock_ms paid 0) as Hw.
  pose proof (fold_hours spec_active_duration_ms paid 0) as Hs.
  unfold wall_clock_ms in Hw at 1. rewrite Hw, Hs, sumZ_spec_active.
  split; [ring|].
  unfold Z.sub. rewrite inject_Z_plus, inject_Z_opp, inject_Z_mult.
  change (inject_Z ms_per_hour) with 3600000%Q.
  change (inject_Z ms_per_minute) with 60000%Q. field.
Qed.

(** ** Withdrawal *)

Lemma Qltb_lt x y : Qltb x y = true <-> (x < y)%Q.
Proof.
  unfold Qltb. rewrite negb_true_iff, <- not_true_iff_false, Qle_bool_iff.
  split; [apply Qnot_le_lt | apply Qlt_not_le].
Qed.

Lemma filter_update_where {A} (q p : A -> bool) f rows :
  (forall r, q (f r) = q r) ->
  filter q (update_where p f rows) = update_where p f (filter q rows).
Proof.
  intro Hq. induction rows as [|r rows IH]; simpl; [reflexivity|].
  replace (q (if p r then f r else r)) with (q r)
    by (destruct (p r); now rewrite ?Hq).
  destruct (q r); simpl; now rewrite IH.
Qed.

Lemma single_some {A} (rows : list A) r : single rows = Some r -> rows = [r].
Proof.
  destruct rows as [|x [|y rows]]; simpl; intro H; try discriminate.
  now injection H as ->.
Qed.

Lemma select_cleaner_visible e d c :
  select_cleaner e d = (Ok (Some c), d) ->
  exists uid, session e = Some uid /\ select_error e = None
              /\ visible_cleaners uid d = [c].
Proof.
  unfold select_cleaner.
  destruct (session e) as [uid|]; [|discriminate].
  destruct (select_error e); [discriminate|].
  intro H. injection H as H. exists uid. repeat split.
  now apply single_some.
Qed.

Lemma requestWithdrawal_run e d amount c :
  select_cleaner e d = (Ok (Some c), d) ->
  requestWithdrawal e amount d
  = if Qltb (num (Cleaner.earnings_balance c)) amount
    then (Err (Thrown "Insufficient balance"), d)
    else
      match insert_error e with
      | Some err => (Err (StoreError err), d)
      | None =>
          let d1 :=
            set_earnings_withdrawals
              (earnings_withdrawals d
                 ++ [Withdrawal.mk (Cleaner.id c) amount]) d in
          match update_error e with
          | Some err => (Err (StoreError err), d1)
          | None =>
              (Ok tt,
               set_cleaners
                 (update_where
                    (fun c0 => String.eqb (Cleaner.id c0) (Cleaner.id c))
                    (set_earnings_balance
                       (Some (num (Cleaner.earnings_balance c) - amount)%Q))
                    (cleaners d)) d1)
          end
      end.
Proof.
  intro Hc. destruct (select_cleaner_session _ _ _ Hc) as [uid Hs].
  unfold requestWithdrawal. rewrite Hs. unfold bind at 1. rewrite Hc.
  destruct (Qltb _ amount); [reflexivity|].
  unfold bind, insert_withdrawal, update_cleaners.
  destruct (insert_error e); [reflexivity|].
  destruct (update_error e); reflexivity.
Qed.

Lemma select_cleaner_after_update e d c p f ws :
  select_cleaner e d = (Ok (Some c), d) ->
  (forall c0, Cleaner.auth_id (f c0) = Cleaner.auth_id c0) ->
  let d' := set_cleaners (update_where p f (cleaners d))
              (set_earnings_withdrawals ws d) in
  select_cleaner e d' = (Ok (Some (if p c then f c else c)), d').
Proof.
  intros Hc Hf d'.
  destruct (select_cleaner_visible _ _ _ Hc) as [uid [Hs [He Hv]]].
  unfold select_cleaner. rewrite Hs, He. unfold visible_cleaners in *.
  subst d'. cbn [cleaners set_cleaners set_earnings_withdrawals].
  rewrite filter_update_where by (intro; now rewrite Hf).
  rewrite Hv. reflexivity.
Qed.

(** A withdrawal the balance covers, the store answering without error. *)
Lemma requestWithdrawal_accepts e d amount c :
  select_cleaner e d = (Ok (Some c), d) ->
  insert_error e = None -> update_error e = None ->
  ~ (num (Cleaner.earnings_balance c) < amount)%Q ->
  let r := requestWithdrawal e amount d in
  fst r = Ok tt
  /\ earnings_withdrawals (snd r)
     = (earnings_withdrawals d ++ [Withdrawal.mk (Cleaner.id c) amount])%list
  /\ bookings (snd r) = bookings d
  /\ select_cleaner e (snd r)
     = (Ok (Some (set_earnings_balance
                    (Some (num (Cleaner.earnings_balance c) - amount)%Q) c)),
        snd r).
Proof.
  intros Hc Hi Hu Hn r. subst r. rewrite (requestWithdrawal_run _ _ _ _ Hc).
  destruct (Qltb _ amount) eqn:E; [apply Qltb_lt in E; tauto|].
  rewrite Hi, Hu. cbn [fst snd]. repeat split.
  rewrite <- (set_bookings_same d) at 2. destruct d as [bs cs ss ws].
  cbn [set_bookings bookings cleaners services earnings_withdrawals
       set_earnings_withdrawals].
  pose proof (select_cleaner_after_update e (mkDb bs cs ss ws) c
                (fun c0 => String.eqb (Cleaner.id c0) (Cleaner.id c))
                (set_earnings_balance
                   (Some (num (Cleaner.earnings_balance c) - amount)%Q))
                (ws ++ [Withdrawal.mk (Cleaner.id c) amount])%list
                Hc ltac:(reflexivity)) as H.
  cbv beta zeta in H. rewrite String.eqb_refl in H. exact H.
Qed.

(** C10: [requestWithdrawal] throws 'Insufficient balance' exactly when
    the balance is strictly below the amount; otherwise (the store
    answering without error) it appends the withdrawal record and sets the
    balance to balance minus amount.  So an amount equal to the balance is
    accepted and leaves zero, and an amount that is zero or negative is
    accepted on any non-negative balance, a negative one raising it. *)
Theorem requestWithdrawal_balance_check (e : env) (d : db) (amount : Q)
  (c : Cleaner.t) :
  select_cleaner e d = (Ok (Some c), d) ->
  let bal := num (Cleaner.earnings_balance c) in
  let r := requestWithdrawal e amount d in
  (fst r = Err (Thrown "Insufficient balance") <-> (bal < amount)%Q)
  /\ (insert_error e = None -> update_error e = None ->
      ~ (bal < amount)%Q ->
      fst r = Ok tt
      /\ earnings_withdrawals (snd r)
         = (earnings_withdrawals d
              ++ [Withdrawal.mk (Cleaner.id c) amount])%list
      /\ bookings (snd r) = bookings d
      /\ exists c', select_cleaner e (snd r) = (Ok (Some c'), snd r)
           /\ Cleaner.id c' = Cleaner.id c
           /\ Cleaner.earnings_balance c' = Some (bal - amount)%Q)
  /\ (amount == bal -> ~ (bal < amount)%Q /\ bal - amount == 0)
  /\ ((amount <= 0)%Q -> (0 <= bal)%Q ->
      ~ (bal < amount)%Q /\ (bal <= bal - amount)%Q
      /\ ((amount < 0)%Q -> (bal < bal - amount)%Q)).
Proof.
  intros Hc bal r. split; [|split; [|split]].
  - subst r. rewrite (requestWithdrawal_run _ _ _ _ Hc). fold bal.
    destruct (Qltb bal amount) eqn:E; cbn [fst].
    + apply Qltb_lt in E. tauto.
    + assert (~ (bal < amount)%Q) as Hn
        by (rewrite <- Qltb_lt; congruence).
      split; [|tauto].
      destruct (insert_error e); [discriminate|].
      destruct (update_error e); discriminate.
  - intros Hi Hu Hn.
    destruct (requestWithdrawal_accepts e d amount c Hc Hi Hu Hn)
      as [H1 [H2 [H3 H4]]].
    repeat (split; [assumption|]).
    eexists. split; [exact H4|]. split; reflexivity.
  - intro Heq. split; lra.
  - intros Hle Hb. repeat split; lra.
Qed.

Lemma requestWithdrawal_balance_check_witness :
  let r := requestWithdrawal (env_at "uA" 5) (-50) sample_db in
  select_cleaner (env_at "uA" 5) sample_db = (Ok (Some cleaner_A), sample_db)
  /\ fst r = Ok tt
  /\ earnings_withdrawals (snd r) = [Withdrawal.mk "cA" (-50)%Q]
  /\ exists c', select_cleaner (env_at "uA" 5) (snd r) = (Ok (Some c'), snd r)
       /\ Cleaner.id c' = "cA"
       /\ Cleaner.earnings_balance c' = Some (0 - -50)%Q.
Proof.
  intro r. split; [reflexivity|].
  destruct (requestWithdrawal_balance_check (env_at "uA" 5) sample_db
              (-50)%Q cleaner_A eq_refl) as [_ [H _]].
  destruct (H eq_refl eq_refl) as [H1 [H2 [_ H3]]].
  - simpl. lra.
  - split; [exact H1|]. split; [exact H2|]. exact H3.
Defined.

(** ** Proof upload *)

(** C6, the failing run: booking [b1], picked and started by cleaner A, is
    still [in_progress] with no proof when an upload at minute 20 sets
    [payment_proof_url] and [payment_collected_at] (and the trigger makes it
    [payment_verified]); a second upload at minute 30 succeeds as well and
    replaces both values. *)
Theorem uploadPaymentProof_has_no_status_guard :
  let d := run_all [pickBooking (env_at "uA" (minutes 0)) "b1";
                    startJob (env_at "uA" (minutes 10)) "b1"] sample_db in
  let r1 := uploadPaymentProof (env_at "uA" (minutes 20)) "b1" "cash.png" d in
  let r2 := uploadPaymentProof (env_at "uA" (minutes 30)) "b1" "cash.jpg"
              (snd r1) in
  map status (bookings d) = [in_progress]
  /\ map payment_proof_url (bookings d) = [None]
  /\ fst r1 = Ok "https://store/receipts/payment-proofs/b1-1200000.png"
  /\ map payment_proof_url (bookings (snd r1))
     = [Some "https://store/receipts/payment-proofs/b1-1200000.png"]
  /\ map payment_collected_at (bookings (snd r1)) = [Some (minutes 20)]
  /\ map status (bookings (snd r1)) = [payment_verified]
  /\ fst r2 = Ok "https://store/receipts/payment-proofs/b1-1800000.jpg"
  /\ map payment_proof_url (bookings (snd r2))
     = [Some "https://store/receipts/payment-proofs/b1-1800000.jpg"]
  /\ map payment_collected_at (bookings (snd r2)) = [Some (minutes 30)].
Proof.
  cbv zeta. repeat split; vm_compute; reflexivity.
Qed.

(** ** Pending cashout and the earnings balance *)

Lemma fetchCleanerBookings_eq e d c :
  select_cleaner e d = (Ok (Some c), d) ->
  fetchCleanerBookings e d
  = sort_by (fun a b => scheduled_at b - scheduled_at a)
      (filter (mine (Cleaner.id c)) (bookings d)).
Proof.
  intro Hc. destruct (select_cleaner_visible _ _ _ Hc) as [uid [Hs [He _]]].
  unfold fetchCleanerBookings. now rewrite Hs, Hc, He.
Qed.

Lemma fold_left_amount l (a : Q) :
  fold_left (fun sum b => (sum + amount b)%Q) l a
  == a + sum_if (fun _ => true) l.
Proof.
  revert a. induction l as [|b l IH]; intro a; simpl; [lra|].
  rewrite IH. lra.
Qed.

Lemma sum_if_filter q l : sum_if (fun _ => true) (filter q l) = sum_if q l.
Proof.
  induction l as [|b l IH]; simpl; [reflexivity|].
  destruct (q b); simpl; now rewrite IH.
Qed.

Lemma sum_if_insert_by q cmp x l :
  sum_if q (insert_by cmp x l) == sum_if q (x :: l).
Proof.
  induction l as [|y l IH]; simpl; [reflexivity|].
  destruct (cmp x y <=? 0); simpl; [reflexivity|].
  simpl in IH. destruct (q x), (q y); lra.
Qed.

Lemma sum_if_sort_by q cmp l : sum_if q (sort_by cmp l) == sum_if q l.
Proof.
  induction l as [|x l IH]; simpl; [reflexivity|].
  rewrite sum_if_insert_by. simpl. destruct (q x); lra.
Qed.

Lemma pendingCashout_sum cmp l :
  pendingCashout (sort_by cmp l) == sum_if collected l.
Proof.
  unfold pendingCashout, completedBookings.
  rewrite fold_left_amount.
  change (fun b => truthy (payment_collected_at b)) with collected.
  rewrite sum_if_filter, sum_if_sort_by. lra.
Qed.

Lemma filter_nil_none {A} (p : A -> bool) l :
  filter p l = [] -> forall r, In r l -> p r = false.
Proof.
  intros H r Hin. destruct (p r) eqn:E; [|reflexivity].
  assert (In r (filter p l)) as Hf by (apply filter_In; auto).
  rewrite H in Hf. destruct Hf.
Qed.

Lemma filter_comm {A} (p q : A -> bool) l :
  filter p (filter q l) = filter q (filter p l).
Proof.
  induction l as [|x l IH]; simpl; [reflexivity|].
  destruct (q x) eqn:Eq, (p x) eqn:Ep; simpl; rewrite ?Eq, ?Ep, IH; reflexivity.
Qed.

Lemma sum_if_update_one q (p : booking -> bool) g l b :
  filter p l = [b] -> q b = false -> q (g b) = true ->
  amount (g b) = amount b ->
  sum_if q (update_where p g l) == sum_if q l + amount b.
Proof.
  intros Hf Hq Hqg Ha. induction l as [|r l IH]; [discriminate|].
  simpl in *. destruct (p r) eqn:Ep.
  - injection Hf as -> Hnil.
    rewrite (update_where_none p g l (filter_nil_none p l Hnil)) in *.
    rewrite Hq, Hqg, Ha. lra.
  - specialize (IH Hf). destruct (q r); lra.
Qed.

Lemma update_proof_none ts ss p f rows cs :
  filter p rows = [] ->
  update_bookings_of_payment_proof_url ts ss p f rows cs = (rows, cs).
Proof.
  induction rows as [|r rows IH]; simpl; [reflexivity|].
  destruct (p r); [discriminate|]. intro H. now rewrite (IH H).
Qed.

Lemma update_proof_single ts ss p f rows cs b :
  filter p rows = [b] -> payment_proof_url b = None ->
  (forall r, payment_proof_url (f r) <> None) ->
  update_bookings_of_payment_proof_url ts ss p f rows cs
  = (update_where p (fun r => verified ts (f r)) rows,
     update_where (fun c => opt_string_eqb (cleaner_id (f b)) (Cleaner.id c))
       (credit (earnings_entry ts (service_name_of ss (service_id (f b)))
                  (f b)))
       cs).
Proof.
  intros Hf Hb Hn. revert cs.
  induction rows as [|r rows IH]; intro cs; [discriminate|].
  simpl in *. destruct (p r) eqn:Ep.
  - injection Hf as -> Hnil.
    rewrite (trigger_fires _ _ _ _ _ Hb (Hn b)).
    rewrite (update_proof_none _ _ _ _ _ _ Hnil).
    rewrite (update_where_none p _ rows (filter_nil_none p rows Hnil)).
    reflexivity.
  - now rewrite (IH Hf cs).
Qed.

Lemma uploadPaymentProof_run e d bookingId file_name b :
  session e <> None -> upload_error e = None -> update_error e = None ->
  filter (fun r => String.eqb (id r) bookingId) (bookings d) = [b] ->
  payment_proof_url b = None ->
  let url := proof_url e bookingId file_name in
  uploadPaymentProof e bookingId file_name d
  = (Ok url,
     set_cleaners
       (update_where
          (fun c => opt_string_eqb (cleaner_id b) (Cleaner.id c))
          (credit (earnings_entry (current_timestamp e)
                     (service_name_of (services d) (service_id b))
                     (with_proof e url b)))
          (cleaners d))
       (set_bookings
          (update_where (fun r => String.eqb (id r) bookingId)
             (fun r => verified (current_timestamp e) (with_proof e url r))
             (bookings d))
          d)).
Proof.
  intros Hs Hup Hu Hf Hb url. unfold uploadPaymentProof.
  destruct (session e); [|congruence]. rewrite Hup.
  unfold bind, update_payment_proof. rewrite Hu, Hf. cbn [List.length Nat.eqb].
  fold (proof_url e bookingId file_name). fold url.
  rewrite (update_proof_single _ _ _ _ _ _ b Hf Hb) by discriminate.
  reflexivity.
Qed.

(** C5, counterexample: after one verified job priced 500 the dashboard
    shows a pending cashout of 500 while the trigger has credited the fixed
    rate, 200, to [earnings_balance]. *)
Lemma pendingCashout_differs_from_balance :
  let e := env_at "uA" (minutes 90) in
  exists c,
    fst (fetchCleanerEarnings e verified_db) = Ok (Some c)
    /\ num (Cleaner.earnings_balance c) == 200
    /\ earnings_pendingCashout (snd (loadOrders e verified_db)) == 500
    /\ ~ earnings_pendingCashout (snd (loadOrders e verified_db))
         == num (Cleaner.earnings_balance c).
Proof.
  cbv zeta. eexists. split; [vm_compute; reflexivity|].
  split; [reflexivity|]. split; [reflexivity|].
  intro H. vm_compute in H. discriminate H.
Qed.

(** C5, amended: [pendingCashout] is the sum of [amount] over the cleaner's
    bookings with non-null [payment_collected_at] and is kept apart from
    [earnings_balance]: the verification of one of the cleaner's bookings
    (proof uploaded on a row without one) raises [pendingCashout] by the
    booking's amount and [earnings_balance] by the fixed rate (150 for
    'Car Wash', otherwise 200), and an accepted withdrawal lowers
    [earnings_balance] by its amount and leaves [pendingCashout] as it
    was. *)
Theorem pendingCashout_and_balance_steps (e : env) (d : db) (c : Cleaner.t) :
  select_cleaner e d = (Ok (Some c), d) ->
  update_error e = None ->
  let bal := num (Cleaner.earnings_balance c) in
  let cashout := fun d0 => earnings_pendingCashout (snd (loadOrders e d0)) in
  (forall bookingId file_name b,
     upload_error e = None ->
     filter (fun r => String.eqb (id r) bookingId) (bookings d) = [b] ->
     cleaner_id b = Some (Cleaner.id c) -> is_deleted b = false ->
     payment_proof_url b = None -> payment_collected_at b = None ->
     let r := uploadPaymentProof e bookingId file_name d in
     let rate := if opt_string_eqb
                      (service_name_of (services d) (service_id b)) "Car Wash"
                 then 150%Q else 200%Q in
     (exists url, fst r = Ok url)
     /\ cashout (snd r) == cashout d + amount b
     /\ exists c', select_cleaner e (snd r) = (Ok (Some c'), snd r)
          /\ num (Cleaner.earnings_balance c') == bal + rate)
  /\
  (forall amount, insert_error e = None -> ~ (bal < amount)%Q ->
     let r := requestWithdrawal e amount d in
     fst r = Ok tt
     /\ cashout (snd r) == cashout d
     /\ exists c', select_cleaner e (snd r) = (Ok (Some c'), snd r)
          /\ num (Cleaner.earnings_balance c') == bal - amount).
Proof.
  intros Hc Hu bal cashout.
  destruct (select_cleaner_session _ _ _ Hc) as [uid Hs].
  assert (Hcash : forall d0 c0, select_cleaner e d0 = (Ok (Some c0), d0) ->
            cashout d0 == sum_if collected
                            (filter (mine (Cleaner.id c0)) (bookings d0))).
  { intros d0 c0 H0. subst cashout. unfold loadOrders.
    cbn [snd earnings_pendingCashout].
    rewrite (fetchCleanerBookings_eq _ _ _ H0). apply pendingCashout_sum. }
  split.
  - intros bookingId file_name b Hup Hf Hcid Hdel Hpr Hpc r rate.
    subst r.
    rewrite (uploadPaymentProof_run e d bookingId file_name b
               ltac:(congruence) Hup Hu Hf Hpr).
    cbn [fst snd]. split; [eexists; reflexivity|].
    set (url := proof_url e bookingId file_name).
    set (entry := earnings_entry _ _ _).
    set (g := fun r => verified (current_timestamp e) (with_proof e url r)).
    set (d1 := set_bookings _ d).
    assert (Hc1 : select_cleaner e d1 = (Ok (Some c), d1)).
    { subst d1. now rewrite select_cleaner_bookings, Hc. }
    pose proof (select_cleaner_after_update e d1 c
                  (fun c0 => opt_string_eqb (cleaner_id b) (Cleaner.id c0))
                  (credit entry) (earnings_withdrawals d1) Hc1
                  ltac:(reflexivity)) as Hc2.
    cbv beta zeta in Hc2.
    replace (set_earnings_withdrawals (earnings_withdrawals d1) d1) with d1
      in Hc2 by now destruct d1.
    rewrite Hcid in Hc2. cbn [opt_string_eqb] in Hc2.
    rewrite String.eqb_refl in Hc2.
    change (cleaners d) with (cleaners d1). rewrite Hcid.
    cbn [opt_string_eqb]. split.
    + rewrite (Hcash _ _ Hc2), (Hcash _ _ Hc).
      change (Cleaner.id (credit entry c)) with (Cleaner.id c).
      cbn [bookings set_cleaners]. subst d1. cbn [bookings set_bookings].
      rewrite filter_update_where by reflexivity.
      apply sum_if_update_one.
      * rewrite filter_comm, Hf. simpl. unfold mine.
        rewrite Hcid, Hdel. cbn [opt_string_eqb]. now rewrite String.eqb_refl.
      * unfold collected. now rewrite Hpc.
      * reflexivity.
      * reflexivity.
    + eexists. split; [exact Hc2|]. reflexivity.
  - intros amount Hi Hn r.
    destruct (requestWithdrawal_accepts e d amount c Hc Hi Hu Hn)
      as [H1 [_ [H3 H4]]].
    fold r in H1, H3, H4. split; [exact H1|]. split.
    + rewrite (Hcash _ _ H4), (Hcash _ _ Hc), H3. reflexivity.
    + eexists. split; [exact H4|]. reflexivity.
Qed.

Lemma pendingCashout_and_balance_steps_witness :
  let e := env_at "uA" (minutes 80) in
  let r := uploadPaymentProof e "b1" "cash.png" done_db in
  bookings done_db = [done_b1]
  /\ earnings_pendingCashout (snd (loadOrders e (snd r)))
     == earnings_pendingCashout (snd (loadOrders e done_db)) + 500
  /\ exists c', select_cleaner e (snd r) = (Ok (Some c'), snd r)
       /\ num (Cleaner.earnings_balance c') == 0 + 200.
Proof.
  intros e r. split; [reflexivity|].
  destruct (proj1 (pendingCashout_and_balance_steps e done_db cleaner_A
                     eq_refl eq_refl)
              "b1" "cash.png" done_b1
              eq_refl eq_refl eq_refl eq_refl eq_refl eq_refl)
    as [_ [H1 H2]].
  split; [exact H1 | exact H2].
Defined.

(** ** Settled rows are an invariant of the operations *)

Lemma settled_row_open b :
  settled_row b -> status b <> payment_verified ->
  payment_collected_at b = None /\ payment_proof_url b = None.
Proof.
  intros [[H1 _] H2] Hs. split.
  - destruct (payment_collected_at b); [|reflexivity].
    now destruct Hs; apply H1.
  - destruct (payment_proof_url b); [|reflexivity].
    now destruct Hs; apply H2.
Qed.

(** A lifecycle update: it applies to rows of some status other than
    [payment_verified], gives them another such status and leaves the
    payment columns alone. *)
Lemma lifecycle_update_settled e p f d :
  (forall b, p b = true -> status b <> payment_verified) ->
  (forall b, status (f b) <> payment_verified
             /\ payment_collected_at (f b) = payment_collected_at b
             /\ payment_proof_url (f b) = payment_proof_url b) ->
  Forall settled_row (bookings d) ->
  Forall settled_row (bookings (snd (update_bookings e p f d))).
Proof.
  intros Hp Hf H. apply update_bookings_Forall; [exact H|].
  intros b Hb Hm. destruct (settled_row_open b Hb (Hp b Hm)) as [Hc Hu].
  destruct (Hf b) as [Hs [Hc' Hu']]. unfold settled_row, settled.
  rewrite Hc', Hu', Hc, Hu. split; [split|]; intro H0; congruence.
Qed.

Lemma and3_status a s c :
  a && status_eqb s pending && c = true
  \/ a && status_eqb s picked && c = true
  \/ a && status_eqb s in_progress && c = true
  \/ a && status_eqb s paused && c = true
  \/ a && (status_eqb s in_progress || status_eqb s paused) && c = true ->
  s <> payment_verified.
Proof. destruct a, s, c; simpl; intuition congruence. Qed.

Lemma trigger_settled ts ss cs OLD NEW :
  settled_row OLD ->
  payment_proof_url NEW <> None -> payment_collected_at NEW <> None ->
  status NEW = status OLD ->
  settled_row (fst (verify_payment_and_update_earnings ts ss cs OLD NEW)).
Proof.
  intros Ho Hn Hc Hs.
  destruct (payment_proof_url OLD) as [u|] eqn:Hu.
  - rewrite trigger_idle by congruence. cbn [fst].
    destruct Ho as [_ Ho]. rewrite Hu in Ho.
    unfold settled_row, settled. rewrite Hs, Ho by discriminate. tauto.
  - rewrite (trigger_fires _ _ _ _ _ Hu Hn). cbn [fst].
    unfold settled_row, settled; simpl. split; [split|]; intro; congruence.
Qed.

Lemma update_proof_settled ts ss p f rows cs :
  (forall r, payment_proof_url (f r) <> None
             /\ payment_collected_at (f r) <> None
             /\ status (f r) = status r) ->
  Forall settled_row rows ->
  Forall settled_row
    (fst (update_bookings_of_payment_proof_url ts ss p f rows cs)).
Proof.
  intros Hf H. revert cs. induction H as [|r rows Hr _ IH]; intro cs; simpl.
  - constructor.
  - destruct (p r).
    + destruct (verify_payment_and_update_earnings ts ss cs r (f r))
        as [r' cs'] eqn:Et.
      specialize (IH cs').
      destruct (update_bookings_of_payment_proof_url ts ss p f rows cs').
      cbn [fst] in *. constructor; [|exact IH].
      change r' with (fst (r', cs')). rewrite <- Et.
      destruct (Hf r) as [H1 [H2 H3]]. now apply trigger_settled.
    + specialize (IH cs).
      destruct (update_bookings_of_payment_proof_url ts ss p f rows cs).
      cbn [fst] in *. now constructor.
Qed.

Lemma uploadPaymentProof_settled e bid file_name d :
  Forall settled_row (bookings d) ->
  Forall settled_row (bookings (snd (uploadPaymentProof e bid file_name d))).
Proof.
  intro H. unfold uploadPaymentProof.
  destruct (session e); [|exact H]. destruct (upload_error e); [exact H|].
  unfold bind, update_payment_proof.
  destruct (update_error e); [exact H|].
  destruct (_ =? _)%nat; [|exact H].
  match goal with
  | |- context [update_bookings_of_payment_proof_url ?ts ?ss ?p ?f ?rows ?cs] =>
      pose proof (update_proof_settled ts ss p f rows cs
                    ltac:(intro r; repeat split; discriminate) H) as H';
      destruct (update_bookings_of_payment_proof_url ts ss p f rows cs)
  end.
  exact H'.
Qed.

Lemma step_settled d d' :
  step d d' -> Forall settled_row (bookings d) ->
  Forall settled_row (bookings d').
Proof.
  intros Hstep H. destruct Hstep.
  - cbn [bookings set_bookings]. apply Forall_app. split; [exact H|].
    repeat constructor; simpl; intro; congruence.
  - unfold pickBooking. destruct (session e); [|exact H].
    unfold bind at 1. unfold select_cleaner.
    destruct (session e), (select_error e); try exact H.
    destruct (single _); [|exact H].
    rewrite snd_update_then_throw. apply lifecycle_update_settled; [| |exact H].
    + intros b Hb. eapply and3_status. left. exact Hb.
    + intro b. repeat split. discriminate.
  - unfold startJob. rewrite snd_update_then_throw.
    apply lifecycle_update_settled; [| |exact H].
    + intros b Hb. eapply and3_status. right; left. exact Hb.
    + intro b. repeat split. discriminate.
  - unfold pauseJob. rewrite snd_update_then_throw.
    apply lifecycle_update_settled; [| |exact H].
    + intros b Hb. eapply and3_status. right; right; left. exact Hb.
    + intro b. repeat split. discriminate.
  - unfold resumeJob. unfold bind at 1. unfold select_booking.
    destruct (single _) as [b0|]; [|exact H].
    destruct (paused_at b0); [|exact H].
    rewrite snd_update_then_throw.
    apply lifecycle_update_settled; [| |exact H].
    + intros b Hb. eapply and3_status. right; right; right; left. exact Hb.
    + intro b. repeat split. discriminate.
  - unfold completeJob. rewrite snd_update_then_throw.
    apply lifecycle_update_settled; [| |exact H].
    + intros b Hb. eapply and3_status. right; right; right; right. exact Hb.
    + intro b. repeat split. discriminate.
  - now apply uploadPaymentProof_settled.
  - unfold requestWithdrawal. destruct (session e); [|exact H].
    unfold bind at 1. unfold select_cleaner.
    destruct (session e), (select_error e); try exact H;
      destruct (single _); try exact H;
      destruct (Qltb _ _); try exact H;
      unfold bind, insert_withdrawal, update_cleaners;
      destruct (insert_error e); try exact H;
      destruct (update_error e); exact H.
Qed.

Lemma reachable_settled d : reachable d -> Forall settled_row (bookings d).
Proof.
  induction 1 as [d H|d d' _ IH Hstep].
  - rewrite H. constructor.
  - exact (step_settled d d' Hstep IH).
Qed.

Lemma done_db_reachable : reachable done_db.
Proof.
  unfold done_db. cbn [run_all].
  do 3 (eapply reachable_step; [|constructor]).
  apply (reachable_step (set_bookings [] sample_db));
    [now apply reachable_empty|].
  exact (step_create (set_bookings [] sample_db) "b1" "s1" 0 500).
Qed.

Lemma verified_db_reachable : reachable verified_db.
Proof.
  apply (reachable_step done_db); [exact done_db_reachable|].
  exact (step_upload (env_at "uA" (minutes 80)) "b1" "cash.png" done_db).
Qed.

(** C4: in every database the system can be in (built from one without
    bookings by bookings being created and the service functions running,
    with the verification trigger in place), for every cleaner, each
    fetched booking is in exactly one of the current list and the history
    list: never in both and never in neither. *)
Theorem reachable_partition (e : env) (d : db) (b : booking) :
  reachable d ->
  In b (fetchAvailableBookings e d ++ fetchCleanerBookings e d) ->
  let orders := fst (loadOrders e d) in
  ~ (In b (current orders) /\ In b (history orders))
  /\ (In b (current orders) \/ In b (history orders)).
Proof.
  intros Hr Hin orders. subst orders. unfold loadOrders.
  cbn [fst current history].
  destruct (current_history_split (fetchAvailableBookings e d)
              (fetchCleanerBookings e d) b
              (fun a => fetchAvailableBookings_pending e d a) Hin) as [H1 H2].
  split; [exact H1|]. apply H2.
  assert (In b (bookings d)) as Hb.
  { apply in_app_iff in Hin. destruct Hin as [Hin|Hin].
    - unfold fetchAvailableBookings in Hin.
      destruct (select_error e); [destruct Hin|].
      apply in_sort_by, filter_In in Hin. tauto.
    - unfold fetchCleanerBookings in Hin.
      destruct (session e); [|destruct Hin].
      destruct (fst (select_cleaner e d)) as [[c|]|]; try destruct Hin.
      destruct (select_error e); [destruct Hin|].
      apply in_sort_by, filter_In in Hin. tauto. }
  pose proof (proj1 (Forall_forall _ _) (reachable_settled d Hr) b Hb) as Hs.
  exact (proj1 Hs).
Qed.

Lemma reachable_partition_witness :
  let e := env_at "uA" (minutes 90) in
  let b := verified (minutes 80)
             (with_proof (env_at "uA" (minutes 80))
                (proof_url (env_at "uA" (minutes 80)) "b1" "cash.png")
                done_b1) in
  let orders := fst (loadOrders e verified_db) in
  reachable verified_db
  /\ In b (fetchAvailableBookings e verified_db
           ++ fetchCleanerBookings e verified_db)
  /\ ~ (In b (current orders) /\ In b (history orders))
  /\ (In b (current orders) \/ In b (history orders)).
Proof.
  intros e b orders. split; [exact verified_db_reachable|].
  assert (In b (fetchAvailableBookings e verified_db
                ++ fetchCleanerBookings e verified_db)) as Hin
    by (vm_compute; left; reflexivity).
  split; [exact Hin|].
  exact (reachable_partition e verified_db b verified_db_reachable Hin).
Defined.

(** * Further properties of the modelled code *)

(** ** The operations as updates *)

Lemma startJob_run e bookingId d :
  startJob e bookingId d
  = match update_error e with
    | Some err => (Err (StoreError err), d)
    | None =>
        (Ok tt,
         set_bookings
           (update_where (start_matches bookingId) (started_by e) (bookings d))
           d)
    end.
Proof.
  unfold startJob, bind, update_bookings. now destruct (update_error e).
Qed.

Lemma pauseJob_run e bookingId d :
  pauseJob e bookingId d
  = match update_error e with
    | Some err => (Err (StoreError err), d)
    | None =>
        (Ok tt,
         set_bookings
           (update_where (pause_matches bookingId) (paused_by e) (bookings d))
           d)
    end.
Proof.
  unfold pauseJob, bind, update_bookings. now destruct (update_error e).
Qed.

Lemma completeJob_run e bookingId d :
  completeJob e bookingId d
  = match update_error e with
    | Some err => (Err (StoreError err), d)
    | None =>
        (Ok tt,
         set_bookings
           (update_where (complete_matches bookingId) (completed_by e)
              (bookings d))
           d)
    end.
Proof.
  unfold completeJob, bind, update_bookings. now destruct (update_error e).
Qed.

Lemma resumeJob_run e bookingId d :
  resumeJob e bookingId d
  = match single (filter (id_matches bookingId) (bookings d)) with
    | None => (Err (Thrown "Job not paused"), d)
    | Some read =>
        match paused_at read with
        | None => (Err (Thrown "Job not paused"), d)
        | Some p =>
            match update_error e with
            | Some err => (Err (StoreError err), d)
            | None =>
                (Ok tt,
                 set_bookings
                   (update_where (resume_matches bookingId)
                      (resumed_by e read p) (bookings d))
                   d)
            end
        end
    end.
Proof.
  unfold resumeJob, bind, select_booking, update_bookings.
  change (fun b => String.eqb (id b) bookingId) with (id_matches bookingId).
  destruct (single _) as [read|]; [|reflexivity].
  destruct (paused_at read); [|reflexivity].
  now destruct (update_error e).
Qed.

Lemma pickBooking_cases e bookingId d :
  snd (pickBooking e bookingId d) = d
  \/ exists c,
       snd (pickBooking e bookingId d)
       = set_bookings
           (update_where (pick_matches bookingId) (picked_by e c) (bookings d))
           d.
Proof.
  destruct (select_cleaner e d) as [[[c|]|err] d0] eqn:Hc.
  - assert (d0 = d) as ->.
    { unfold select_cleaner in Hc.
      destruct (session e), (select_error e); now inversion Hc. }
    destruct (update_error e) eqn:Hu.
    + left. unfold pickBooking.
      destruct (session e); [|reflexivity].
      unfold bind at 1. rewrite Hc. unfold bind, update_bookings.
      now rewrite Hu.
    + right. exists c. now rewrite (pickBooking_run _ _ _ _ Hc Hu).
  - left. unfold pickBooking. destruct (session e); [|reflexivity].
    unfold bind at 1. rewrite Hc.
    unfold select_cleaner in Hc.
    destruct (session e), (select_error e); now inversion Hc.
  - unfold select_cleaner in Hc.
    destruct (session e), (select_error e); discriminate.
Qed.

(** What the trigger returns for the row: the proposed row, verified when
    the proof is new. *)
Lemma trigger_row ts ss cs OLD NEW :
  payment_proof_url NEW <> None ->
  fst (verify_payment_and_update_earnings ts ss cs OLD NEW)
  = if truthy (payment_proof_url OLD) then NEW else verified ts NEW.
Proof.
  intro Hn. destruct (payment_proof_url OLD) eqn:Ho.
  - rewrite trigger_idle by congruence. reflexivity.
  - rewrite (trigger_fires _ _ _ _ _ Ho Hn). reflexivity.
Qed.

Lemma trigger_cleaners ts ss cs OLD NEW :
  payment_proof_url NEW <> None ->
  snd (verify_payment_and_update_earnings ts ss cs OLD NEW)
  = if truthy (payment_proof_url OLD) then cs
    else update_where
           (fun c => opt_string_eqb (cleaner_id NEW) (Cleaner.id c))
           (credit (earnings_entry ts (service_name_of ss (service_id NEW))
                      NEW))
           cs.
Proof.
  intro Hn. destruct (payment_proof_url OLD) eqn:Ho.
  - rewrite trigger_idle by congruence. reflexivity.
  - rewrite (trigger_fires _ _ _ _ _ Ho Hn). reflexivity.
Qed.

(** The bookings and cleaners [uploadPaymentProof] leaves: the database as
    it was, or the outcome of the update with its trigger. *)
Lemma uploadPaymentProof_cases e bookingId file_name d :
  snd (uploadPaymentProof e bookingId file_name d) = d
  \/ (List.length (filter (id_matches bookingId) (bookings d)) = 1%nat
      /\ fst (uploadPaymentProof e bookingId file_name d)
         = Ok (proof_url e bookingId file_name)
      /\ snd (uploadPaymentProof e bookingId file_name d)
         = let out :=
             update_bookings_of_payment_proof_url (current_timestamp e)
               (services d) (id_matches bookingId)
               (with_proof e (proof_url e bookingId file_name))
               (bookings d) (cleaners d) in
           set_cleaners (snd out) (set_bookings (fst out) d)).
Proof.
  unfold uploadPaymentProof.
  destruct (session e); [|now left].
  destruct (upload_error e); [now left|].
  unfold bind, update_payment_proof.
  destruct (update_error e); [now left|].
  fold (proof_url e bookingId file_name).
  change (fun b => String.eqb (id b) bookingId) with (id_matches bookingId).
  change (fun b => set_payment_collected_at (Some (now e))
                     (set_payment_proof_url
                        (Some (proof_url e bookingId file_name)) b))
    with (with_proof e (proof_url e bookingId file_name)).
  destruct (_ =? _)%nat eqn:En; [|now left].
  right. apply Nat.eqb_eq in En. split; [exact En|].
  destruct (update_bookings_of_payment_proof_url _ _ _ _ _ _); split; reflexivity.
Qed.

(** ** Row-by-row relations between the database before and after *)

Lemma Forall2_update_where {A} (R : A -> A -> Prop) p f rows :
  (forall r, R r r) ->
  (forall r, In r rows -> p r = true -> R r (f r)) ->
  Forall2 R rows (update_where p f rows).
Proof.
  intros Hrefl. induction rows as [|r rows IH]; intro H; simpl.
  - constructor.
  - constructor.
    + destruct (p r) eqn:E; [apply H; simpl; auto | apply Hrefl].
    + apply IH. intros r0 Hin. apply H. now right.
Qed.

Lemma Forall2_same {A} (R : A -> A -> Prop) l :
  (forall r, R r r) -> Forall2 R l l.
Proof. intro H. induction l; constructor; auto. Qed.

Lemma Forall2_update_proof (R : booking -> booking -> Prop) ts ss p f rows cs :
  (forall r, R r r) ->
  (forall cs0 r, In r rows -> p r = true ->
     R r (fst (verify_payment_and_update_earnings ts ss cs0 r (f r)))) ->
  Forall2 R rows (fst (update_bookings_of_payment_proof_url ts ss p f rows cs)).
Proof.
  intro Hrefl. revert cs. induction rows as [|r rows IH]; intros cs H; simpl.
  - constructor.
  - assert (Hrest : forall cs1,
              Forall2 R rows
                (fst (update_bookings_of_payment_proof_url ts ss p f rows cs1))).
    { intro cs1. apply IH. intros cs0 r0 Hin. apply H. now right. }
    destruct (p r) eqn:Ep.
    + pose proof (H cs r (or_introl eq_refl) Ep) as Hr.
      destruct (verify_payment_and_update_earnings ts ss cs r (f r))
        as [r' cs'].
      specialize (Hrest cs').
      destruct (update_bookings_of_payment_proof_url ts ss p f rows cs').
      now constructor.
    + specialize (Hrest cs).
      destruct (update_bookings_of_payment_proof_url ts ss p f rows cs).
      constructor; [apply Hrefl | exact Hrest].
Qed.

Lemma Forall2_update_proof_cleaners (Rc : Cleaner.t -> Cleaner.t -> Prop)
  ts ss p f rows cs :
  (forall c, Rc c c) ->
  (forall a b c, Rc a b -> Rc b c -> Rc a c) ->
  (forall cs0 r, In r rows -> p r = true ->
     Forall2 Rc cs0 (snd (verify_payment_and_update_earnings ts ss cs0 r (f r)))) ->
  Forall2 Rc cs (snd (update_bookings_of_payment_proof_url ts ss p f rows cs)).
Proof.
  intros Hrefl Htrans. revert cs.
  assert (Ht2 : forall l1 l2 l3,
            Forall2 Rc l1 l2 -> Forall2 Rc l2 l3 -> Forall2 Rc l1 l3).
  { intros l1 l2 l3 H12. revert l3.
    induction H12; intros l3 H23; inversion H23; subst; constructor; eauto. }
  induction rows as [|r rows IH]; intros cs H; simpl.
  - now apply Forall2_same.
  - assert (Hrest : forall cs1,
              Forall2 Rc cs1
                (snd (update_bookings_of_payment_proof_url ts ss p f rows cs1))).
    { intro cs1. apply IH. intros cs0 r0 Hin. apply H. now right. }
    destruct (p r) eqn:Ep.
    + pose proof (H cs r (or_introl eq_refl) Ep) as Hr.
      destruct (verify_payment_and_update_earnings ts ss cs r (f r))
        as [r' cs'].
      specialize (Hrest cs').
      destruct (update_bookings_of_payment_proof_url ts ss p f rows cs').
      cbn [snd] in *. eapply Ht2; eassumption.
    + specialize (Hrest cs).
      destruct (update_bookings_of_payment_proof_url ts ss p f rows cs).
      exact Hrest.
Qed.

Lemma single_filter_in {A} (p : A -> bool) rows read r :
  single (filter p rows) = Some read -> In r rows -> p r = true -> r = read.
Proof.
  intros Hs Hin Hp. apply single_some in Hs.
  assert (In r (filter p rows)) as H by (apply filter_In; auto).
  rewrite Hs in H. destruct H as [H|[]]. now symmetry.
Qed.

Lemma resume_matches_id bookingId b :
  resume_matches bookingId b = true -> id_matches bookingId b = true.
Proof.
  unfold resume_matches, id_matches. intro H.
  apply and3_true in H. tauto.
Qed.

Lemma requestWithdrawal_bookings e a d :
  bookings (snd (requestWithdrawal e a d)) = bookings d.
Proof.
  unfold requestWithdrawal. destruct (session e); [|reflexivity].
  unfold bind at 1. unfold select_cleaner.
  destruct (session e), (select_error e); try reflexivity;
    destruct (single _); try reflexivity;
    destruct (Qltb _ _); try reflexivity;
    unfold bind, insert_withdrawal, update_cleaners;
    destruct (insert_error e); try reflexivity;
    destruct (update_error e); reflexivity.
Qed.

(** Every operation rewrites the rows of [bookings] in place, and only
    creation adds one. *)
Lemma step_bookings_rel (R : booking -> booking -> Prop) d d' :
  (forall b, R b b) ->
  (forall e bid c b, In b (bookings d) -> pick_matches bid b = true ->
     R b (picked_by e c b)) ->
  (forall e bid b, In b (bookings d) -> start_matches bid b = true ->
     R b (started_by e b)) ->
  (forall e bid b, In b (bookings d) -> pause_matches bid b = true ->
     R b (paused_by e b)) ->
  (forall e bid b p, In b (bookings d) -> resume_matches bid b = true ->
     paused_at b = Some p -> R b (resumed_by e b p b)) ->
  (forall e bid b, In b (bookings d) -> complete_matches bid b = true ->
     R b (completed_by e b)) ->
  (forall e url b, In b (bookings d) ->
     R b (if truthy (payment_proof_url b) then with_proof e url b
          else verified (current_timestamp e) (with_proof e url b))) ->
  step d d' ->
  exists rows' added,
    bookings d' = (rows' ++ added)%list /\ Forall2 R (bookings d) rows'
    /\ (added = [] \/ exists bid sid t price,
                        added = [new_booking bid sid t price]).
Proof.
  intros Hrefl Hpick Hstart Hpause Hresume Hcomplete Hupload Hstep.
  assert (Hsame : exists rows' added,
            bookings d = (rows' ++ added)%list /\ Forall2 R (bookings d) rows'
            /\ (added = [] \/ exists bid sid t price,
                                added = [new_booking bid sid t price])).
  { exists (bookings d), []. rewrite app_nil_r.
    split; [reflexivity|]. split; [now apply Forall2_same | now left]. }
  assert (Hupd : forall p f,
            (forall r, In r (bookings d) -> p r = true -> R r (f r)) ->
            exists rows' added,
              update_where p f (bookings d) = (rows' ++ added)%list
              /\ Forall2 R (bookings d) rows'
              /\ (added = [] \/ exists bid sid t price,
                                  added = [new_booking bid sid t price])).
  { intros p f H. exists (update_where p f (bookings d)), [].
    rewrite app_nil_r. split; [reflexivity|].
    split; [now apply Forall2_update_where | now left]. }
  destruct Hstep.
  - exists (bookings d), [new_booking bid sid t price].
    split; [reflexivity|]. split; [now apply Forall2_same|].
    right. now exists bid, sid, t, price.
  - destruct (pickBooking_cases e bid d) as [->|[c ->]]; [exact Hsame|].
    cbn [bookings set_bookings]. apply Hupd. intros r Hin Hm. eapply Hpick; eassumption.
  - rewrite startJob_run. destruct (update_error e); [exact Hsame|].
    cbn [snd bookings set_bookings]. apply Hupd. intros r Hin Hm. eapply Hstart; eassumption.
  - rewrite pauseJob_run. destruct (update_error e); [exact Hsame|].
    cbn [snd bookings set_bookings]. apply Hupd. intros r Hin Hm. eapply Hpause; eassumption.
  - rewrite resumeJob_run.
    destruct (single _) as [read|] eqn:Hs; [|exact Hsame].
    destruct (paused_at read) as [p|] eqn:Hp; [|exact Hsame].
    destruct (update_error e); [exact Hsame|].
    cbn [snd bookings set_bookings]. apply Hupd. intros r Hin Hm.
    assert (r = read) as <-
      by (eapply single_filter_in; eauto using resume_matches_id).
    now apply Hresume with (bid := bid).
  - rewrite completeJob_run. destruct (update_error e); [exact Hsame|].
    cbn [snd bookings set_bookings]. apply Hupd. intros r Hin Hm. eapply Hcomplete; eassumption.
  - destruct (uploadPaymentProof_cases e bid file_name d)
      as [->|[_ [_ ->]]]; [exact Hsame|].
    cbv zeta. cbn [bookings set_bookings set_cleaners].
    eexists _, []. rewrite app_nil_r. split; [reflexivity|].
    split; [|now left].
    apply Forall2_update_proof; [exact Hrefl|].
    intros cs0 r Hin _. rewrite trigger_row by discriminate.
    change (payment_proof_url (with_proof e (proof_url e bid file_name) r))
      with (Some (proof_url e bid file_name)).
    now apply Hupload.
  - rewrite requestWithdrawal_bookings. exact Hsame.
Qed.

(** ** Column presence by status *)

Lemma Forall2_Forall {A} (P : A -> Prop) l l' :
  Forall2 (fun a a' => P a -> P a') l l' -> Forall P l -> Forall P l'.
Proof.
  induction 1 as [|a a' l l' Ha _ IH]; intro H; [constructor|].
  inversion H; subst. constructor; auto.
Qed.

Lemma matches_status bid b :
  (pick_matches bid b = true -> status b = pending)
  /\ (start_matches bid b = true -> status b = picked)
  /\ (pause_matches bid b = true -> status b = in_progress)
  /\ (resume_matches bid b = true -> status b = paused)
  /\ (complete_matches bid b = true ->
      status b = in_progress \/ status b = paused).
Proof.
  unfold pick_matches, start_matches, pause_matches, resume_matches,
    complete_matches.
  destruct (String.eqb (id b) bid), (status b), (is_deleted b); simpl;
    repeat split; intro; try discriminate; auto.
Qed.

Lemma matches_id_live bid b :
  pick_matches bid b = true \/ start_matches bid b = true
  \/ pause_matches bid b = true \/ resume_matches bid b = true
  \/ complete_matches bid b = true ->
  id b = bid /\ is_deleted b = false.
Proof.
  unfold pick_matches, start_matches, pause_matches, resume_matches,
    complete_matches.
  destruct (String.eqb_spec (id b) bid), (is_deleted b); simpl;
    rewrite ?andb_false_r; intuition discriminate.
Qed.

Ltac lifecycle_case Hm :=
  let Hs := fresh "Hs" in
  let Hi := fresh "Hi" in
  match type of Hm with
  | pick_matches ?bid ?b = true =>
      pose proof (proj1 (matches_status bid b) Hm) as Hs
  | start_matches ?bid ?b = true =>
      pose proof (proj1 (proj2 (matches_status bid b)) Hm) as Hs
  | pause_matches ?bid ?b = true =>
      pose proof (proj1 (proj2 (proj2 (matches_status bid b))) Hm) as Hs
  | resume_matches ?bid ?b = true =>
      pose proof (proj1 (proj2 (proj2 (proj2 (matches_status bid b)))) Hm)
        as Hs
  end;
  let Hn := fresh "Hn" in
  intro Hi; unfold lifecycle_inv in Hi |- *; rewrite Hs in Hi;
  destruct Hi as [Hi Hn]; destruct (Hn ltac:(discriminate)) as [? ?];
  decompose [and] Hi; simpl;
  repeat split; try assumption; try discriminate;
  try (intros _; assumption).

Lemma step_lifecycle_inv d d' :
  step d d' -> Forall lifecycle_inv (bookings d) ->
  Forall lifecycle_inv (bookings d').
Proof.
  intros Hstep H.
  destruct (step_bookings_rel
              (fun b b' => lifecycle_inv b -> lifecycle_inv b') d d')
    as [rows' [added [-> [H2 Hadd]]]]; try exact Hstep; try tauto.
  - intros e bid c b _ Hm. lifecycle_case Hm.
  - intros e bid b _ Hm. lifecycle_case Hm.
  - intros e bid b _ Hm. lifecycle_case Hm.
  - intros e bid b p _ Hm Hp. lifecycle_case Hm.
  - intros e bid b _ Hm Hi.
    destruct (proj2 (proj2 (proj2 (proj2 (matches_status bid b)))) Hm)
      as [Hs|Hs];
      unfold lifecycle_inv in Hi |- *; rewrite Hs in Hi;
      destruct Hi as [Hi Hn]; destruct (Hn ltac:(discriminate)) as [? ?];
      decompose [and] Hi; simpl;
      repeat split; try assumption; try discriminate;
      try (intros _; assumption).
  - intros e url b _ Hi. unfold lifecycle_inv in Hi |- *.
    destruct (payment_proof_url b) eqn:Hu; simpl.
    + destruct Hi as [Hi Hn].
      destruct (status b); try (destruct Hn; discriminate).
      split; [split; discriminate | intro H0; now contradiction H0].
    + split; [split; discriminate | intro H0; now contradiction H0].
  - apply Forall_app. split; [now apply (Forall2_Forall _ _ _ H2)|].
    destruct Hadd as [->|[bid [sid [t [price ->]]]]]; [constructor|].
    repeat constructor; discriminate.
Qed.

Lemma reachable_lifecycle d :
  reachable d -> Forall lifecycle_inv (bookings d).
Proof.
  induction 1 as [d H|d d' _ IH Hstep].
  - rewrite H. constructor.
  - exact (step_lifecycle_inv d d' Hstep IH).
Qed.

(** X1: in every database built from an empty one by bookings being
    created and the service functions running, the columns a booking has
    set are those of its status: nothing but the price and schedule while
    pending; cleaner and [picked_at] from pickup on; [started_at] from the
    start on; [paused_at] exactly while paused (before completion);
    [completed_at] when completed; and the two payment columns exactly
    when payment is verified. *)
Theorem reachable_lifecycle_inv (d : db) :
  reachable d -> Forall lifecycle_inv (bookings d).
Proof. apply reachable_lifecycle. Qed.

Lemma reachable_lifecycle_inv_witness :
  reachable done_db /\ Forall lifecycle_inv (bookings done_db).
Proof.
  split; [exact done_db_reachable|].
  exact (reachable_lifecycle_inv done_db done_db_reachable).
Defined.

(** ** What an operation leaves alone *)





Lemma frame_update (p : booking -> bool) f bid rows :
  (forall b, p b = true -> id b = bid /\ is_deleted b = false) ->
  Forall2 (fun b b' => id b <> bid \/ is_deleted b = true -> b' = b)
    rows (update_where p f rows).
Proof.
  intro Hp. apply Forall2_update_where; [reflexivity|].
  intros b _ Hm [Hid|Hdel]; destruct (Hp b Hm); congruence.
Qed.

(** X3: [pickBooking], [startJob], [pauseJob], [resumeJob] and
    [completeJob] change no booking other than the one named, never a
    soft-deleted booking, and nothing in the other tables. *)
Theorem lifecycle_ops_frame (e : env) (bid : string) (d : db) (op : M unit) :
  In op [pickBooking e bid; startJob e bid; pauseJob e bid;
         resumeJob e bid; completeJob e bid] ->
  Forall2 (fun b b' => id b <> bid \/ is_deleted b = true -> b' = b)
    (bookings d) (bookings (snd (op d)))
  /\ cleaners (snd (op d)) = cleaners d
  /\ services (snd (op d)) = services d
  /\ earnings_withdrawals (snd (op d)) = earnings_withdrawals d.
Proof.
  assert (Hsame : Forall2
            (fun b b' => id b <> bid \/ is_deleted b = true -> b' = b)
            (bookings d) (bookings d)) by (apply Forall2_same; reflexivity).
  intros [<-|[<-|[<-|[<-|[<-|[]]]]]].
  - destruct (pickBooking_cases e bid d) as [->|[c ->]]; [now repeat split|].
    repeat split. cbn [bookings set_bookings]. apply frame_update.
    intros b Hm. apply matches_id_live. auto.
  - rewrite startJob_run. destruct (update_error e); [now repeat split|].
    repeat split. cbn [snd bookings set_bookings]. apply frame_update.
    intros b Hm. apply matches_id_live. auto.
  - rewrite pauseJob_run. destruct (update_error e); [now repeat split|].
    repeat split. cbn [snd bookings set_bookings]. apply frame_update.
    intros b Hm. apply matches_id_live. auto.
  - rewrite resumeJob_run. destruct (single _) as [read|]; [|now repeat split].
    destruct (paused_at read); [|now repeat split].
    destruct (update_error e); [now repeat split|].
    repeat split. cbn [snd bookings set_bookings]. apply frame_update.
    intros b Hm. apply matches_id_live. auto.
  - rewrite completeJob_run. destruct (update_error e); [now repeat split|].
    repeat split. cbn [snd bookings set_bookings]. apply frame_update.
    intros b Hm. apply matches_id_live. auto.
Qed.

Lemma lifecycle_ops_frame_witness :
  Forall2 (fun b b' => id b <> "b9" \/ is_deleted b = true -> b' = b)
    (bookings done_db)
    (bookings (snd (completeJob (env_at "uA" 1) "b9" done_db))).
Proof.
  exact (proj1 (lifecycle_ops_frame (env_at "uA" 1) "b9" done_db
                  (completeJob (env_at "uA" 1) "b9")
                  ltac:(simpl; tauto))).
Defined.

Lemma uploadPaymentProof_frame_aux e bid file_name d :
  let r := uploadPaymentProof e bid file_name d in
  Forall2 (fun b b' => id b <> bid -> b' = b) (bookings d) (bookings (snd r))
  /\ services (snd r) = services d
  /\ earnings_withdrawals (snd r) = earnings_withdrawals d
  /\ (forall err, fst r = Err err -> snd r = d).
Proof.
  cbv zeta.
  destruct (uploadPaymentProof_cases e bid file_name d) as [->|[_ [Hf ->]]].
  - repeat split. apply Forall2_same; reflexivity.
  - cbv zeta. cbn [bookings services earnings_withdrawals set_bookings
                   set_cleaners].
    repeat split.
    + apply Forall2_update_proof; [reflexivity|].
      intros cs0 r _ Hm Hid. unfold id_matches in Hm.
      apply String.eqb_eq in Hm. contradiction.
    + intros err Herr. rewrite Hf in Herr. discriminate.
Qed.

(** X4: [uploadPaymentProof] changes no booking other than the one named,
    and never the services or the withdrawals; when it throws, the
    database is as it was. *)
Theorem uploadPaymentProof_frame (e : env) (bid file_name : string) (d : db) :
  let r := uploadPaymentProof e bid file_name d in
  Forall2 (fun b b' => id b <> bid -> b' = b) (bookings d) (bookings (snd r))
  /\ services (snd r) = services d
  /\ earnings_withdrawals (snd r) = earnings_withdrawals d
  /\ (forall err, fst r = Err err -> snd r = d).
Proof. apply uploadPaymentProof_frame_aux. Qed.

(** ** Resume *)

Lemma update_where_ext {A} (p q : A -> bool) f g rows :
  (forall r, In r rows -> (if p r then f r else r) = (if q r then g r else r)) ->
  update_where p f rows = update_where q g rows.
Proof. intro H. unfold update_where. now apply map_ext_in. Qed.

Lemma filter_single_in {A} (p : A -> bool) rows b r :
  filter p rows = [b] -> In r rows -> p r = true -> r = b.
Proof.
  intros Hf Hin Hp.
  assert (In r (filter p rows)) as H by (apply filter_In; auto).
  rewrite Hf in H. destruct H as [H|[]]. now symmetry.
Qed.

Lemma resumeJob_paused_run e bid d b p :
  update_error e = None ->
  filter (id_matches bid) (bookings d) = [b] ->
  status b = paused -> paused_at b = Some p -> is_deleted b = false ->
  resumeJob e bid d
  = (Ok tt,
     set_bookings
       (update_where (id_matches bid) (fun _ => resumed_by e b p b)
          (bookings d)) d).
Proof.
  intros Hu Hf Hs Hp Hdel. rewrite resumeJob_run, Hf. cbn [single].
  rewrite Hp, Hu. f_equal. f_equal. apply update_where_ext.
  intros r Hin. unfold resume_matches. fold (id_matches bid r).
  destruct (id_matches bid r) eqn:Hid; [|reflexivity].
  rewrite (filter_single_in _ _ _ _ Hf Hin Hid), Hs, Hdel. reflexivity.
Qed.







(** ** Proof upload and the earnings account *)

Lemma update_proof_single_idle ts ss p f rows cs b :
  filter p rows = [b] -> payment_proof_url b <> None ->
  update_bookings_of_payment_proof_url ts ss p f rows cs
  = (update_where p f rows, cs).
Proof.
  intros Hf Hb. revert cs.
  induction rows as [|r rows IH]; intro cs; [discriminate|].
  simpl in *. destruct (p r) eqn:Ep.
  - injection Hf as -> Hnil.
    rewrite (trigger_idle _ _ _ _ _ Hb).
    rewrite (update_proof_none _ _ _ _ _ _ Hnil).
    rewrite (update_where_none p _ rows (filter_nil_none p rows Hnil)).
    reflexivity.
  - now rewrite (IH Hf cs).
Qed.

(** X8: uploading a proof for a booking that already has one succeeds,
    overwrites [payment_proof_url] and [payment_collected_at], and credits
    nobody: the cleaners' balances and histories stay as they are. *)
Theorem uploadPaymentProof_again_no_credit (e : env) (bid file_name : string)
  (d : db) (b : booking) :
  session e <> None -> upload_error e = None -> update_error e = None ->
  filter (id_matches bid) (bookings d) = [b] ->
  payment_proof_url b <> None ->
  let r := uploadPaymentProof e bid file_name d in
  let url := proof_url e bid file_name in
  fst r = Ok url
  /\ cleaners (snd r) = cleaners d
  /\ bookings (snd r)
     = map (fun r0 => if String.eqb (id r0) bid
                      then set_payment_collected_at (Some (now e))
                             (set_payment_proof_url (Some url) r0)
                      else r0)
         (bookings d).
Proof.
  intros Hs Hup Hu Hf Hb r url. subst r.
  unfold uploadPaymentProof. destruct (session e); [|congruence].
  rewrite Hup. unfold bind, update_payment_proof. rewrite Hu.
  change (fun b => String.eqb (id b) bid) with (id_matches bid).
  rewrite Hf. cbn [List.length Nat.eqb].
  rewrite (update_proof_single_idle _ _ _ _ _ _ b Hf Hb).
  cbn [fst snd cleaners bookings set_cleaners set_bookings].
  repeat split.
Qed.

Lemma uploadPaymentProof_again_no_credit_witness :
  let r := uploadPaymentProof (env_at "uA" (minutes 95)) "b1" "again.jpg"
             verified_db in
  fst r = Ok "https://store/receipts/payment-proofs/b1-5700000.jpg"
  /\ cleaners (snd r) = cleaners verified_db.
Proof.
  intro r.
  destruct (uploadPaymentProof_again_no_credit (env_at "uA" (minutes 95))
              "b1" "again.jpg" verified_db
              (verified (minutes 80)
                 (with_proof (env_at "uA" (minutes 80))
                    (proof_url (env_at "uA" (minutes 80)) "b1" "cash.png")
                    done_b1))
              ltac:(discriminate) eq_refl eq_refl eq_refl
              ltac:(discriminate))
    as [H1 [H2 _]].
  split; [exact H1 | exact H2].
Defined.

(** ** Withdrawal: the two writes *)

(** X9: [requestWithdrawal] is not atomic.  When the insert succeeds and
    the update of the balance then fails, the call throws the store's
    error, the withdrawal record stays and the balance is not reduced;
    every other failure leaves the database as it was. *)
Theorem requestWithdrawal_partial_failure (e : env) (d : db) (amount : Q)
  (c : Cleaner.t) (err : string) :
  select_cleaner e d = (Ok (Some c), d) ->
  ~ (num (Cleaner.earnings_balance c) < amount)%Q ->
  insert_error e = None ->
  update_error e = Some err ->
  let r := requestWithdrawal e amount d in
  fst r = Err (StoreError err)
  /\ earnings_withdrawals (snd r)
     = (earnings_withdrawals d ++ [Withdrawal.mk (Cleaner.id c) amount])%list
  /\ cleaners (snd r) = cleaners d
  /\ bookings (snd r) = bookings d
  /\ forall e' amount',
       select_cleaner e' d = (Ok (Some c), d) ->
       (insert_error e' <> None
        \/ (num (Cleaner.earnings_balance c) < amount')%Q) ->
       exists err', requestWithdrawal e' amount' d = (Err err', d).
Proof.
  intros Hc Hn Hi Hu r. subst r. rewrite (requestWithdrawal_run _ _ _ _ Hc).
  destruct (Qltb _ amount) eqn:E; [apply Qltb_lt in E; tauto|].
  rewrite Hi, Hu. cbn [fst snd]. repeat split.
  intros e' amount' Hc' H. rewrite (requestWithdrawal_run _ _ _ _ Hc').
  destruct (Qltb _ amount') eqn:E'; [eauto|].
  destruct H as [H|H]; [|apply Qltb_lt in H; congruence].
  destruct (insert_error e'); [eauto | congruence].
Qed.

Lemma requestWithdrawal_partial_failure_witness :
  let e := mkEnv (Some "uA") 5 5 "https://store/receipts/"
             None None (Some "timeout") None in
  let r := requestWithdrawal e 0 sample_db in
  fst r = Err (StoreError "timeout")
  /\ earnings_withdrawals (snd r) = [Withdrawal.mk "cA" 0%Q]
  /\ cleaners (snd r) = cleaners sample_db.
Proof.
  intros e r.
  destruct (requestWithdrawal_partial_failure e sample_db 0%Q cleaner_A
              "timeout" eq_refl ltac:(simpl; lra) eq_refl eq_refl)
    as [H1 [H2 [H3 _]]].
  split; [exact H1|]. split; [exact H2 | exact H3].
Defined.

(** ** The cleaners' accounts along the operations *)

Lemma requestWithdrawal_cases e a d :
  (cleaners (snd (requestWithdrawal e a d)) = cleaners d
   /\ (earnings_withdrawals (snd (requestWithdrawal e a d))
       = earnings_withdrawals d
       \/ update_error e <> None))
  \/ exists c,
       In c (cleaners d)
       /\ ~ (num (Cleaner.earnings_balance c) < a)%Q
       /\ update_error e = None
       /\ cleaners (snd (requestWithdrawal e a d))
          = update_where
              (fun c0 => String.eqb (Cleaner.id c0) (Cleaner.id c))
              (set_earnings_balance
                 (Some (num (Cleaner.earnings_balance c) - a)%Q))
              (cleaners d)
       /\ earnings_withdrawals (snd (requestWithdrawal e a d))
          = (earnings_withdrawals d ++ [Withdrawal.mk (Cleaner.id c) a])%list.
Proof.
  destruct (select_cleaner e d) as [[[c|]|err] d0] eqn:Hc.
  - assert (d0 = d) as ->.
    { unfold select_cleaner in Hc.
      destruct (session e), (select_error e); now inversion Hc. }
    rewrite (requestWithdrawal_run _ _ _ _ Hc).
    destruct (Qltb _ a) eqn:E; [left; split; [reflexivity | now left]|].
    destruct (insert_error e); [left; split; [reflexivity | now left]|].
    destruct (update_error e) eqn:Hu.
    + left. split; [reflexivity|]. right. discriminate.
    + right. exists c.
      destruct (select_cleaner_visible _ _ _ Hc) as [uid [_ [_ Hv]]].
      split.
      { assert (In c (visible_cleaners uid d)) as H
          by (rewrite Hv; now left).
        unfold visible_cleaners in H. apply filter_In in H. tauto. }
      split; [rewrite <- Qltb_lt; congruence|].
      repeat split.
  - assert (d0 = d) as ->.
    { unfold select_cleaner in Hc.
      destruct (session e), (select_error e); now inversion Hc. }
    left. unfold requestWithdrawal. destruct (session e);
      [|split; [reflexivity | now left]].
    unfold bind. rewrite Hc. split; [reflexivity | left; reflexivity].
  - unfold select_cleaner in Hc.
    destruct (session e), (select_error e); discriminate.
Qed.

Lemma lifecycle_cleaners e bid d :
  cleaners (snd (pickBooking e bid d)) = cleaners d
  /\ cleaners (snd (startJob e bid d)) = cleaners d
  /\ cleaners (snd (pauseJob e bid d)) = cleaners d
  /\ cleaners (snd (resumeJob e bid d)) = cleaners d
  /\ cleaners (snd (completeJob e bid d)) = cleaners d.
Proof.
  repeat split.
  - now destruct (pickBooking_cases e bid d) as [->|[c ->]].
  - rewrite startJob_run. now destruct (update_error e).
  - rewrite pauseJob_run. now destruct (update_error e).
  - rewrite resumeJob_run. destruct (single _) as [read|]; [|reflexivity].
    destruct (paused_at read); [|reflexivity]. now destruct (update_error e).
  - rewrite completeJob_run. now destruct (update_error e).
Qed.

Lemma lifecycle_withdrawals e bid d :
  earnings_withdrawals (snd (pickBooking e bid d)) = earnings_withdrawals d
  /\ earnings_withdrawals (snd (startJob e bid d)) = earnings_withdrawals d
  /\ earnings_withdrawals (snd (pauseJob e bid d)) = earnings_withdrawals d
  /\ earnings_withdrawals (snd (resumeJob e bid d)) = earnings_withdrawals d
  /\ earnings_withdrawals (snd (completeJob e bid d)) = earnings_withdrawals d.
Proof.
  repeat split.
  - now destruct (pickBooking_cases e bid d) as [->|[c ->]].
  - rewrite startJob_run. now destruct (update_error e).
  - rewrite pauseJob_run. now destruct (update_error e).
  - rewrite resumeJob_run. destruct (single _) as [read|]; [|reflexivity].
    destruct (paused_at read); [|reflexivity]. now destruct (update_error e).
  - rewrite completeJob_run. now destruct (update_error e).
Qed.

Lemma upload_cleaners_rel (Rc : Cleaner.t -> Cleaner.t -> Prop) e bid
  file_name d :
  (forall c, Rc c c) ->
  (forall a b c, Rc a b -> Rc b c -> Rc a c) ->
  (forall ts name b c, Rc c (credit (earnings_entry ts name b) c)) ->
  Forall2 Rc (cleaners d) (cleaners (snd (uploadPaymentProof e bid file_name d))).
Proof.
  intros Hrefl Htrans Hcredit.
  destruct (uploadPaymentProof_cases e bid file_name d) as [->|[_ [_ ->]]];
    [now apply Forall2_same|].
  cbv zeta. cbn [cleaners set_cleaners].
  apply Forall2_update_proof_cleaners; [exact Hrefl | exact Htrans|].
  intros cs0 r _ _. rewrite trigger_cleaners by discriminate.
  destruct (truthy (payment_proof_url r)); [now apply Forall2_same|].
  apply Forall2_update_where; [exact Hrefl|]. intros. apply Hcredit.
Qed.

(** Every operation rewrites the rows of [cleaners] in place: a credit by
    the trigger, or the new balance written by a withdrawal the balance
    covers. *)
Lemma step_cleaners_rel (Rc : Cleaner.t -> Cleaner.t -> Prop) d d' :
  (forall c, Rc c c) ->
  (forall a b c, Rc a b -> Rc b c -> Rc a c) ->
  (forall ts name b c, Rc c (credit (earnings_entry ts name b) c)) ->
  (forall c c0 a, In c (cleaners d) ->
     ~ (num (Cleaner.earnings_balance c) < a)%Q ->
     Rc c0 (set_earnings_balance
              (Some (num (Cleaner.earnings_balance c) - a)%Q) c0)) ->
  step d d' -> Forall2 Rc (cleaners d) (cleaners d').
Proof.
  intros Hrefl Htrans Hcredit Hdebit Hstep.
  pose proof (Forall2_same Rc (cleaners d) Hrefl) as Hsame.
  destruct Hstep as [d bid sid t price|e bid d|e bid d|e bid d|e bid d
                    |e bid d|e bid file_name d|e a d].
  - exact Hsame.
  - now rewrite (proj1 (lifecycle_cleaners e bid d)).
  - now rewrite (proj1 (proj2 (lifecycle_cleaners e bid d))).
  - now rewrite (proj1 (proj2 (proj2 (lifecycle_cleaners e bid d)))).
  - now rewrite (proj1 (proj2 (proj2 (proj2 (lifecycle_cleaners e bid d))))).
  - now rewrite (proj2 (proj2 (proj2 (proj2 (lifecycle_cleaners e bid d))))).
  - now apply upload_cleaners_rel.
  - destruct (requestWithdrawal_cases e a d)
      as [[-> _]|[c [Hin [Hn [_ [-> _]]]]]]; [exact Hsame|].
    apply Forall2_update_where; [exact Hrefl|].
    intros c0 _ _. now apply Hdebit.
Qed.

(** X10: no operation makes a balance negative: if every
    [earnings_balance] is non-negative (null counting as 0) before an
    operation, every one is after it. *)
Theorem step_balance_nonneg (d d' : db) :
  Forall (fun c => (0 <= num (Cleaner.earnings_balance c))%Q) (cleaners d) ->
  step d d' ->
  Forall (fun c => (0 <= num (Cleaner.earnings_balance c))%Q) (cleaners d').
Proof.
  intros H Hstep.
  apply (Forall2_Forall _ (cleaners d)); [|exact H].
  apply step_cleaners_rel; try exact Hstep; try tauto.
  - intros ts name b c Hc. simpl. unfold earning_amount.
    destruct (opt_string_eqb name "Car Wash"); lra.
  - intros c c0 a _ Hn _. simpl. lra.
Qed.

Lemma step_balance_nonneg_witness :
  Forall (fun c => (0 <= num (Cleaner.earnings_balance c))%Q)
    (cleaners verified_db).
Proof.
  apply (step_balance_nonneg done_db verified_db).
  - repeat constructor; simpl; lra.
  - exact (step_upload (env_at "uA" (minutes 80)) "b1" "cash.png" done_db).
Defined.

Lemma extends_refl c : extends c c.
Proof. repeat split. exists []. now rewrite app_nil_r. Qed.

Lemma extends_trans a b c : extends a b -> extends b c -> extends a c.
Proof.
  intros [H1 [H2 [x Hx]]] [H3 [H4 [y Hy]]]. repeat split; try congruence.
  exists (x ++ y)%list. now rewrite Hy, Hx, app_assoc.
Qed.

(** X11: the earnings records are append-only.  Along every operation each
    cleaner row keeps its id and owner and its [earnings_history] only
    gains entries at the end (a withdrawal adds none), and the table of
    withdrawals only gains records at the end. *)
Theorem step_ledgers_append_only (d d' : db) :
  step d d' ->
  Forall2 extends (cleaners d) (cleaners d')
  /\ exists added,
       earnings_withdrawals d' = (earnings_withdrawals d ++ added)%list.
Proof.
  intro Hstep. split.
  - apply step_cleaners_rel; try exact Hstep.
    + exact extends_refl.
    + exact extends_trans.
    + intros ts name b c. repeat split.
      exists [earnings_entry ts name b]. reflexivity.
    + intros c c0 a _ _. repeat split. exists []. now rewrite app_nil_r.
  - assert (Hsame : exists added,
              earnings_withdrawals d = (earnings_withdrawals d ++ added)%list)
      by (exists []; now rewrite app_nil_r).
    destruct Hstep as [d bid sid t price|e bid d|e bid d|e bid d|e bid d
                      |e bid d|e bid file_name d|e a d].
    + exact Hsame.
    + now rewrite (proj1 (lifecycle_withdrawals e bid d)).
    + now rewrite (proj1 (proj2 (lifecycle_withdrawals e bid d))).
    + now rewrite (proj1 (proj2 (proj2 (lifecycle_withdrawals e bid d)))).
    + now rewrite
        (proj1 (proj2 (proj2 (proj2 (lifecycle_withdrawals e bid d))))).
    + now rewrite
        (proj2 (proj2 (proj2 (proj2 (lifecycle_withdrawals e bid d))))).
    + destruct (uploadPaymentProof_cases e bid file_name d)
        as [->|[_ [_ ->]]]; exact Hsame.
    + unfold requestWithdrawal. destruct (session e); [|exact Hsame].
      unfold bind at 1. unfold select_cleaner.
      destruct (session e), (select_error e); try exact Hsame;
        destruct (single _); try exact Hsame;
        destruct (Qltb _ _); try exact Hsame;
        unfold bind, insert_withdrawal, update_cleaners;
        destruct (insert_error e); try exact Hsame;
        destruct (update_error e); cbn [snd earnings_withdrawals
          set_earnings_withdrawals set_cleaners]; eexists; reflexivity.
Qed.

Lemma step_ledgers_append_only_witness :
  Forall2 extends (cleaners done_db) (cleaners verified_db).
Proof.
  exact (proj1 (step_ledgers_append_only done_db verified_db
                  (step_upload (env_at "uA" (minutes 80)) "b1" "cash.png"
                     done_db))).
Defined.

(** ** Balance = credits - withdrawals *)

Lemma sum_entries_app (l1 l2 : list Earning.t) :
  fold_right (fun entry s => (Earning.amount entry + s)%Q) 0%Q (l1 ++ l2)
  == fold_right (fun entry s => (Earning.amount entry + s)%Q) 0%Q l1
     + fold_right (fun entry s => (Earning.amount entry + s)%Q) 0%Q l2.
Proof.
  induction l1 as [|x l1 IH]; simpl; [lra|]. rewrite IH. lra.
Qed.

Lemma credited_credit entry c :
  credited (credit entry c) == credited c + Earning.amount entry.
Proof.
  unfold credited. change (history_of (credit entry c))
    with (history_of c ++ [entry])%list.
  rewrite sum_entries_app. simpl. lra.
Qed.

Lemma withdrawn_app cid ws w :
  withdrawn cid (ws ++ [w])
  == withdrawn cid ws
     + (if String.eqb (Withdrawal.cleaner_id w) cid
        then Withdrawal.amount w else 0).
Proof.
  induction ws as [|x ws IH]; simpl.
  - destruct (String.eqb _ cid); lra.
  - destruct (String.eqb (Withdrawal.cleaner_id x) cid); rewrite IH; lra.
Qed.

Lemma NoDup_map_eq {A B} (f : A -> B) l a b :
  NoDup (map f l) -> In a l -> In b l -> f a = f b -> a = b.
Proof.
  induction l as [|x l IH]; simpl; intros Hnd Ha Hb Hf; [destruct Ha|].
  inversion Hnd as [|y l' Hnin Hnd']; subst.
  destruct Ha as [->|Ha], Hb as [->|Hb]; auto.
  - destruct Hnin. rewrite Hf. now apply in_map.
  - destruct Hnin. rewrite <- Hf. now apply in_map.
Qed.

Lemma ledger_ok_Forall d :
  ledger_ok d <->
  Forall (fun c => num (Cleaner.earnings_balance c)
                   == credited c
                      - withdrawn (Cleaner.id c) (earnings_withdrawals d))
    (cleaners d).
Proof. unfold ledger_ok. now rewrite Forall_forall. Qed.

Lemma sample_ledger_ok : ledger_ok done_db.
Proof.
  intros c Hin. change (cleaners done_db) with [cleaner_A; cleaner_B] in Hin.
  destruct Hin as [<-|[<-|[]]]; reflexivity.
Qed.

(** X12: the account equation [earnings_balance = sum of the history's
    amounts - sum of the cleaner's withdrawals] is kept by a proof upload
    in every case, and by a withdrawal request whenever the store does not
    refuse the update of the balance (cleaner ids being unique). *)
Theorem ledger_ok_preserved (e : env) (d : db) :
  ledger_ok d ->
  (forall bid file_name,
     ledger_ok (snd (uploadPaymentProof e bid file_name d)))
  /\ (forall a,
        NoDup (map Cleaner.id (cleaners d)) -> update_error e = None ->
        ledger_ok (snd (requestWithdrawal e a d))).
Proof.
  intro H. split.
  - intros bid file_name. apply ledger_ok_Forall.
    rewrite (proj1 (proj2 (proj2 (uploadPaymentProof_frame_aux e bid file_name d)))).
    apply ledger_ok_Forall in H.
    refine (Forall2_Forall _ (cleaners d) _ _ H).
    apply upload_cleaners_rel.
    + tauto.
    + tauto.
    + intros ts name b c Hc. rewrite credited_credit. simpl in *.
      change (Earning.amount (earnings_entry ts name b))
        with (earning_amount name).
      rewrite Hc. lra.
  - intros a Hnd Hu.
    destruct (requestWithdrawal_cases e a d)
      as [[Hcs [Hws|Hne]]|[c [Hin [Hn [_ [Hcs Hws]]]]]]; [| congruence |].
    + intros c Hc. rewrite Hcs in Hc. rewrite Hws. now apply H.
    + intros c' Hc'. rewrite Hcs in Hc'. rewrite Hws.
      unfold update_where in Hc'. apply in_map_iff in Hc'.
      destruct Hc' as [c0 [<- Hc0]].
      rewrite withdrawn_app. cbn [Withdrawal.cleaner_id Withdrawal.amount].
      destruct (String.eqb_spec (Cleaner.id c0) (Cleaner.id c)) as [Hid|Hid].
      * assert (c0 = c) as -> by (eapply NoDup_map_eq; eauto).
        cbn [set_earnings_balance Cleaner.id Cleaner.earnings_balance num].
        change (credited (set_earnings_balance _ c)) with (credited c).
        rewrite String.eqb_refl. rewrite (H c Hin). lra.
      * destruct (String.eqb_spec (Cleaner.id c) (Cleaner.id c0));
          [congruence|].
        rewrite (H c0 Hc0). lra.
Qed.

Lemma ledger_ok_preserved_witness :
  ledger_ok done_db /\ ledger_ok verified_db.
Proof.
  split; [exact sample_ledger_ok|].
  exact (proj1 (ledger_ok_preserved (env_at "uA" (minutes 80)) done_db
                  sample_ledger_ok) "b1" "cash.png").
Defined.

(** ** The reported duration *)

Lemma duration_parts_minutes d :
  0 <= d ->
  duration_hours d = d / ms_per_minute / 60
  /\ duration_minutes d = (d / ms_per_minute) mod 60.
Proof.
  intro Hd. unfold duration_hours, duration_minutes, ms_per_hour, ms_per_minute.
  change (1000 * 60 * 60) with (60000 * 60). change (1000 * 60) with 60000.
  split.
  - now rewrite Z.div_div by lia.
  - rewrite Z.rem_mod_nonneg by lia.
    rewrite Z.rem_mul_r by lia.
    rewrite (Z.mul_comm 60000), Z.div_add by lia.
    rewrite Z.div_small by (apply Z.mod_pos_bound; lia). lia.
Qed.

(** X13: for a started booking whose computed active duration is not
    negative, the text of [getJobDuration] shows that duration in whole
    minutes, rounded down, split into hours and minutes below 60. *)
Theorem getJobDuration_whole_minutes (t : timestamp) (order : booking) :
  started_at order <> None ->
  0 <= job_duration_ms t t order ->
  let total := job_duration_ms t t order / ms_per_minute in
  getJobDuration t order
  = (show_int (total / 60) ++ "h " ++ show_int (total mod 60) ++ "m")%string
  /\ total / 60 * 60 + total mod 60 = total
  /\ 0 <= total mod 60 < 60.
Proof.
  intros Hs Hd total. split; [|split].
  - unfold getJobDuration, getJobDuration2.
    destruct (started_at order); [|congruence]. cbn [truthy negb].
    unfold format_duration.
    destruct (duration_parts_minutes _ Hd) as [-> ->]. reflexivity.
  - pose proof (Z.div_mod total 60 ltac:(lia)). lia.
  - apply Z.mod_pos_bound. lia.
Qed.

Lemma getJobDuration_whole_minutes_witness :
  getJobDuration (minutes 100) paused_booking = "0h 30m".
Proof.
  exact (proj1 (getJobDuration_whole_minutes (minutes 100) paused_booking
                  ltac:(discriminate) ltac:(vm_compute; discriminate))).
Defined.

(** X14: once [completed_at] is set and the status is not [paused], what
    [getJobDuration] reports no longer depends on the clock: it is
    [completed_at - started_at] less the committed pause minutes, whatever
    [paused_at] holds. *)
Theorem getJobDuration_finished_fixed (order : booking) (c : timestamp)
  (t1 t2 t1' t2' : timestamp) :
  completed_at order = Some c ->
  status order <> paused ->
  getJobDuration2 t1 t2 order = getJobDuration2 t1' t2' order
  /\ job_duration_ms t1 t2 order
     = c - getTime (started_at order)
       - or_zero (total_pause_duration order) * ms_per_minute.
Proof.
  intros Hc Hs.
  assert (forall a b, job_duration_ms a b order
                      = c - getTime (started_at order)
                        - or_zero (total_pause_duration order) * ms_per_minute)
    as H.
  { intros a b. unfold job_duration_ms. rewrite Hc.
    apply status_eqb_neq in Hs. rewrite Hs. simpl.
    unfold ms_per_minute. lia. }
  split; [|apply H].
  unfold getJobDuration2. now rewrite !H.
Qed.

Lemma getJobDuration_finished_fixed_witness :
  getJobDuration2 1 2 done_b1 = getJobDuration2 3 4 done_b1
  /\ job_duration_ms 1 2 done_b1 = minutes 60.
Proof.
  exact (getJobDuration_finished_fixed done_b1 (minutes 70) 1 2 3 4
           eq_refl ltac:(discriminate)).
Defined.

(** ** Order of the lists *)

Lemma insert_by_sorted {A} (R : A -> A -> Prop) (cmp : A -> A -> Z) x l :
  (forall a b, cmp a b <= 0 -> R a b) ->
  (forall a b, ~ cmp a b <= 0 -> R b a) ->
  (forall a b c, R a b -> R b c -> R a c) ->
  StronglySorted R l -> StronglySorted R (insert_by cmp x l).
Proof.
  intros Hle Hgt Htrans. induction 1 as [|y l Hl IH Hy]; simpl.
  - repeat constructor.
  - destruct (Z.leb_spec (cmp x y) 0) as [Hc|Hc].
    + constructor; [now constructor|]. constructor; [now apply Hle|].
      apply Forall_impl with (2 := Hy). intros z. apply Htrans. now apply Hle.
    + constructor; [exact IH|].
      apply Forall_forall. intros z Hz. apply in_insert_by in Hz.
      destruct Hz as [->|Hz]; [apply Hgt; lia|].
      now apply (proj1 (Forall_forall _ _) Hy).
Qed.

Lemma sort_by_sorted {A} (R : A -> A -> Prop) (cmp : A -> A -> Z) l :
  (forall a b, cmp a b <= 0 -> R a b) ->
  (forall a b, ~ cmp a b <= 0 -> R b a) ->
  (forall a b c, R a b -> R b c -> R a c) ->
  StronglySorted R (sort_by cmp l).
Proof.
  intros Hle Hgt Htrans. induction l as [|x l IH]; simpl; [constructor|].
  now apply insert_by_sorted.
Qed.

Lemma insert_by_perm {A} (cmp : A -> A -> Z) x l :
  Permutation (insert_by cmp x l) (x :: l).
Proof.
  induction l as [|y l IH]; simpl; [reflexivity|].
  destruct (cmp x y <=? 0); [reflexivity|].
  rewrite IH. apply perm_swap.
Qed.

Lemma sort_by_perm {A} (cmp : A -> A -> Z) l : Permutation (sort_by cmp l) l.
Proof.
  induction l as [|x l IH]; simpl; [reflexivity|].
  now rewrite insert_by_perm, IH.
Qed.

(** X15: the current list is in ascending order of [scheduled_at] and holds
    each available booking and each of the cleaner's unpaid bookings as
    often as they were fetched; the history list is in descending order of
    [completed_at] (a null one counting as the epoch). *)
Theorem orders_sorted (e : env) (d : db) :
  let orders := fst (loadOrders e d) in
  StronglySorted (fun a b => scheduled_at a <= scheduled_at b)
    (current orders)
  /\ StronglySorted
       (fun a b => getTime (completed_at b) <= getTime (completed_at a))
       (history orders)
  /\ (exists unpaid,
        Permutation (current orders) (fetchAvailableBookings e d ++ unpaid)
        /\ forall b, In b unpaid <->
             In b (fetchCleanerBookings e d)
             /\ payment_collected_at b = None
             /\ status b <> payment_verified)
  /\ Permutation (history orders)
       (filter (fun b => truthy (payment_collected_at b)
                         && status_eqb (status b) payment_verified)
          (fetchCleanerBookings e d)).
Proof.
  cbv zeta. unfold loadOrders. cbn [fst current history].
  unfold currentOrders, historyOrders. split; [|split; [|split]].
  - apply sort_by_sorted; intros; lia.
  - apply sort_by_sorted; intros; lia.
  - eexists. split; [apply sort_by_perm|].
    intro b. rewrite filter_In. split.
    + intros [Hin H]. split; [exact Hin|].
      destruct (payment_collected_at b); [discriminate|].
      split; [reflexivity|]. intro Hs. rewrite Hs in H. discriminate.
    + intros [Hin [Hc Hs]]. split; [exact Hin|]. rewrite Hc.
      destruct (status b); try reflexivity. congruence.
  - apply sort_by_perm.
Qed.

(** ** Earnings buckets *)

Lemma sum_if_filter2 (q c : booking -> bool) l :
  sum_if q (filter c l) = sum_if (fun b => c b && q b) l.
Proof.
  induction l as [|b l IH]; simpl; [reflexivity|].
  destruct (c b); simpl; now rewrite IH.
Qed.

Lemma sum_if_mono (q1 q2 : booking -> bool) l :
  (forall b, In b l -> (0 <= amount b)%Q) ->
  (forall b, q1 b = true -> q2 b = true) ->
  (0 <= sum_if q1 l)%Q /\ (sum_if q1 l <= sum_if q2 l)%Q.
Proof.
  intros Hpos Hq. induction l as [|b l IH]; simpl; [split; lra|].
  destruct IH as [IH1 IH2]; [intros; apply Hpos; now right|].
  pose proof (Hpos b (or_introl eq_refl)) as Hb.
  assert (0 <= sum_if q2 l)%Q by lra.
  destruct (q1 b) eqn:E1.
  - rewrite (Hq b E1). split; lra.
  - destruct (q2 b); split; lra.
Qed.

Lemma earnings_since_sum start l :
  earnings_since start l
  == sum_if (fun b => collected b
                      && (start <=? getTime (payment_collected_at b))) l.
Proof.
  unfold earnings_since, completedBookings. rewrite fold_left_amount.
  rewrite sum_if_filter.
  change (fun b => truthy (payment_collected_at b)) with collected.
  rewrite sum_if_filter2. lra.
Qed.

(** X16: an earnings bucket counts the bookings whose payment was
    collected at or after its start.  When no amount is negative, a bucket
    with an earlier start is at least as large as one with a later start,
    and no bucket exceeds [pendingCashout]; so [today <= thisWeek <=
    thisMonth <= pendingCashout] as soon as the three starts are in that
    order. *)
Theorem earnings_buckets_nested (cleanerBookings : list booking)
  (start1 start2 : timestamp) :
  (forall b, In b cleanerBookings -> (0 <= amount b)%Q) ->
  start1 <= start2 ->
  (0 <= earnings_since start2 cleanerBookings)%Q
  /\ (earnings_since start2 cleanerBookings
      <= earnings_since start1 cleanerBookings)%Q
  /\ (earnings_since start1 cleanerBookings
      <= pendingCashout cleanerBookings)%Q.
Proof.
  intros Hpos Hle. rewrite !earnings_since_sum.
  assert (pendingCashout cleanerBookings == sum_if collected cleanerBookings)
    as ->.
  { unfold pendingCashout, completedBookings. rewrite fold_left_amount.
    change (fun b => truthy (payment_collected_at b)) with collected.
    rewrite sum_if_filter. lra. }
  split; [|split].
  - apply (sum_if_mono _ (fun _ => true)); auto.
  - apply sum_if_mono; [exact Hpos|]. intros b H.
    apply andb_prop in H. destruct H as [-> H]. simpl.
    apply Z.leb_le in H. apply Z.leb_le. lia.
  - apply sum_if_mono; [exact Hpos|]. intros b H.
    apply andb_prop in H. tauto.
Qed.

Lemma earnings_buckets_nested_witness :
  (earnings_since (minutes 62) [paused_job]
   <= earnings_since (minutes 61) [paused_job])%Q
  /\ earnings_since (minutes 62) [paused_job] == 0
  /\ earnings_since (minutes 61) [paused_job] == 500.
Proof.
  split; [|split; reflexivity].
  apply (earnings_buckets_nested [paused_job] (minutes 61) (minutes 62)).
  - intros b [<-|[]]. vm_compute. discriminate.
  - vm_compute. discriminate.
Defined.

(** ** The dashboard's buttons and the service functions *)

Lemma filter_id_update p f bid rows b :
  (forall r, id (f r) = id r) ->
  filter (id_matches bid) rows = [b] -> p b = true ->
  filter (id_matches bid) (update_where p f rows) = [f b].
Proof.
  intros Hf Hb Hp.
  rewrite filter_update_where
    by (intro r; unfold id_matches; now rewrite Hf).
  rewrite Hb. simpl. now rewrite Hp.
Qed.

Lemma single_row_id {A} (p : A -> bool) rows b :
  filter p rows = [b] -> p b = true.
Proof.
  intro H. assert (In b (filter p rows)) as Hin by (rewrite H; now left).
  apply filter_In in Hin. tauto.
Qed.

(** X17: a button the dashboard shows for an order does what it says when
    the database still holds the order as displayed: the click runs the
    service function, which changes the booking to the status the button
    stands for, and the handler shows its success toast and reloads the
    lists. *)
Theorem offered_action_takes_effect (e : env) (d : db) (a : action)
  (bid file_name : string) (b : booking) (c : Cleaner.t) :
  select_cleaner e d = (Ok (Some c), d) ->
  update_error e = None -> upload_error e = None ->
  filter (id_matches bid) (bookings d) = [b] ->
  is_deleted b = false -> lifecycle_inv b ->
  offered b a = true ->
  let out := click e a bid file_name d in
  title (fst (fst out)) <> "Error"
  /\ snd (fst out) = Some (loadOrders e (snd out))
  /\ exists b', filter (id_matches bid) (bookings (snd out)) = [b']
                /\ status b' = target a.
Proof.
  intros Hc Hu Hup Hf Hdel Hinv Hoff out. subst out.
  pose proof (single_row_id _ _ _ Hf) as Hid. unfold id_matches in Hid.
  destruct a; cbn [click offered target] in *.
  - apply status_eqb_eq in Hoff.
    unfold handlePickBooking, handler.
    rewrite (pickBooking_run _ _ _ _ Hc Hu). cbn [fst snd title].
    split; [discriminate|]. split; [reflexivity|].
    eexists. split; [|shelve].
    cbn [bookings set_bookings]. apply filter_id_update; [reflexivity | exact Hf |].
    unfold pick_matches. now rewrite Hid, Hoff, Hdel.
    Unshelve. reflexivity.
  - apply status_eqb_eq in Hoff.
    unfold handleStartJob, handler. rewrite startJob_run, Hu.
    cbn [fst snd title]. split; [discriminate|]. split; [reflexivity|].
    eexists. split; [|shelve].
    cbn [bookings set_bookings]. apply filter_id_update; [reflexivity | exact Hf |].
    unfold start_matches. now rewrite Hid, Hoff, Hdel.
    Unshelve. reflexivity.
  - rewrite andb_true_r in Hoff. apply status_eqb_eq in Hoff.
    unfold handlePauseJob, handler. rewrite pauseJob_run, Hu.
    cbn [fst snd title]. split; [discriminate|]. split; [reflexivity|].
    eexists. split; [|shelve].
    cbn [bookings set_bookings]. apply filter_id_update; [reflexivity | exact Hf |].
    unfold pause_matches. now rewrite Hid, Hoff, Hdel.
    Unshelve. reflexivity.
  - apply status_eqb_eq in Hoff.
    assert (exists p, paused_at b = Some p) as [p Hp].
    { unfold lifecycle_inv in Hinv. rewrite Hoff in Hinv.
      destruct (paused_at b) as [p|]; [now exists p | tauto]. }
    unfold handleResumeJob, handler.
    rewrite (resumeJob_paused_run e bid d b p Hu Hf Hoff Hp Hdel).
    cbn [fst snd title]. split; [discriminate|]. split; [reflexivity|].
    eexists. split; [|shelve].
    cbn [bookings set_bookings].
    rewrite (update_where_ext (id_matches bid) (id_matches bid)
               (fun _ => resumed_by e b p b) (resumed_by e b p));
      [apply filter_id_update; [reflexivity | exact Hf | exact Hid]|].
    intros r Hin. destruct (id_matches bid r) eqn:E; [|reflexivity].
    now rewrite (filter_single_in _ _ _ _ Hf Hin E).
    Unshelve. reflexivity.
  - unfold handleCompleteJob, handler. rewrite completeJob_run, Hu.
    cbn [fst snd title]. split; [discriminate|]. split; [reflexivity|].
    eexists. split; [|shelve].
    cbn [bookings set_bookings]. apply filter_id_update; [reflexivity | exact Hf |].
    unfold complete_matches. now rewrite Hid, Hoff, Hdel.
    Unshelve. reflexivity.
  - apply andb_prop in Hoff. destruct Hoff as [Hoff _].
    apply andb_prop in Hoff. destruct Hoff as [Hst _].
    apply status_eqb_eq in Hst.
    assert (payment_proof_url b = None) as Hpr.
    { unfold lifecycle_inv in Hinv. rewrite Hst in Hinv.
      destruct Hinv as [_ Hn]. destruct Hn; [discriminate | assumption]. }
    destruct (select_cleaner_session _ _ _ Hc) as [uid Hs].
    unfold handleMoneyCollected, handler.
    rewrite (uploadPaymentProof_run e d bid file_name b
               ltac:(congruence) Hup Hu Hf Hpr).
    cbn [fst snd title]. split; [discriminate|]. split; [reflexivity|].
    eexists. split; [|shelve].
    cbn [bookings set_bookings set_cleaners].
    change (fun r => String.eqb (id r) bid) with (id_matches bid).
    apply (filter_id_update (id_matches bid)
             (fun r => verified (current_timestamp e)
                         (with_proof e (proof_url e bid file_name) r)));
      [reflexivity | exact Hf | exact Hid].
    Unshelve. reflexivity.
Qed.

Lemma offered_action_takes_effect_witness :
  let out := click (env_at "uA" (minutes 80)) UploadPaymentProof "b1"
               "cash.png" done_db in
  title (fst (fst out)) = "Payment Proof Uploaded"
  /\ map status (bookings (snd out)) = [payment_verified].
Proof.
  intro out.
  destruct (offered_action_takes_effect (env_at "uA" (minutes 80)) done_db
              UploadPaymentProof "b1" "cash.png" done_b1 cleaner_A
              eq_refl eq_refl eq_refl eq_refl eq_refl
              ltac:(repeat split; discriminate) eq_refl)
    as [_ [_ [b' [Hb' Hs]]]].
  split; reflexivity.
Defined.

(** ** Who sees a booking after pickup *)

Lemma in_fetchAvailableBookings e d b :
  In b (fetchAvailableBookings e d) ->
  In b (bookings d) /\ status b = pending.
Proof.
  intro H. split; [|now apply fetchAvailableBookings_pending in H].
  unfold fetchAvailableBookings in H. destruct (select_error e); [destruct H|].
  apply in_sort_by, filter_In in H. tauto.
Qed.

Lemma in_fetchCleanerBookings e d c b :
  select_cleaner e d = (Ok (Some c), d) ->
  In b (fetchCleanerBookings e d) <->
  In b (bookings d) /\ cleaner_id b = Some (Cleaner.id c)
  /\ is_deleted b = false.
Proof.
  intro Hc. rewrite (fetchCleanerBookings_eq _ _ _ Hc), in_sort_by, filter_In.
  unfold mine. rewrite andb_true_iff, opt_string_eqb_eq, negb_true_iff.
  tauto.
Qed.

(** X18: a pending booking (no payment recorded) is in the current list of
    every cleaner; once a cleaner has picked it, it is in that cleaner's
    current list as [picked] and in no list of a cleaner with another
    id. *)
Theorem picked_booking_visibility (eA eB : env) (d : db) (bid : string)
  (b : booking) (cA cB : Cleaner.t) :
  select_cleaner eA d = (Ok (Some cA), d) ->
  select_cleaner eB d = (Ok (Some cB), d) ->
  Cleaner.id cB <> Cleaner.id cA ->
  update_error eA = None ->
  filter (id_matches bid) (bookings d) = [b] ->
  status b = pending -> is_deleted b = false ->
  payment_collected_at b = None ->
  let d1 := snd (pickBooking eA bid d) in
  In b (current (fst (loadOrders eB d)))
  /\ In (picked_by eA cA b) (current (fst (loadOrders eA d1)))
  /\ forall o, In o (current (fst (loadOrders eB d1)))
               \/ In o (history (fst (loadOrders eB d1))) ->
               id o <> bid.
Proof.
  intros HA HB Hne Hu Hf Hs Hdel Hpc d1.
  destruct (select_cleaner_visible _ _ _ HA) as [uA [_ [HeA _]]].
  destruct (select_cleaner_visible _ _ _ HB) as [uB [_ [HeB _]]].
  pose proof (single_row_id _ _ _ Hf) as Hid.
  assert (Hin : In b (bookings d)).
  { assert (In b (filter (id_matches bid) (bookings d))) as H
      by (rewrite Hf; now left).
    apply filter_In in H. tauto. }
  assert (Hd1 : bookings d1
                = update_where (pick_matches bid) (picked_by eA cA)
                    (bookings d)).
  { subst d1. now rewrite (pickBooking_run _ _ _ _ HA Hu). }
  assert (Hrows : forall o, In o (bookings d1) -> id o = bid ->
                            o = picked_by eA cA b).
  { intros o Ho Hio. rewrite Hd1 in Ho. unfold update_where in Ho.
    apply in_map_iff in Ho. destruct Ho as [r [Hr Hrin]].
    assert (r = b) as ->.
    { apply (filter_single_in _ _ _ _ Hf Hrin). unfold id_matches.
      destruct (pick_matches bid r) eqn:E.
      - unfold pick_matches in E. apply and3_true in E. tauto.
      - subst o. now rewrite Hio, String.eqb_refl. }
    unfold pick_matches in Hr. unfold id_matches in Hid.
    rewrite Hid, Hs, Hdel in Hr. now symmetry. }
  assert (HA1 : select_cleaner eA d1 = (Ok (Some cA), d1)).
  { subst d1. rewrite (pickBooking_run _ _ _ _ HA Hu). cbn [snd].
    now rewrite select_cleaner_bookings, HA. }
  assert (HB1 : select_cleaner eB d1 = (Ok (Some cB), d1)).
  { subst d1. rewrite (pickBooking_run _ _ _ _ HA Hu). cbn [snd].
    now rewrite select_cleaner_bookings, HB. }
  unfold loadOrders. cbn [fst current history].
  unfold currentOrders, historyOrders. split; [|split].
  - apply in_sort_by, in_app_iff. left.
    unfold fetchAvailableBookings. rewrite HeB.
    apply in_sort_by, filter_In. split; [exact Hin|].
    now rewrite Hs, Hdel.
  - apply in_sort_by, in_app_iff. right. apply filter_In. split.
    + apply (in_fetchCleanerBookings _ _ _ _ HA1). split; [|now split].
      rewrite Hd1.
      pose proof (in_update_where (pick_matches bid) (picked_by eA cA)
                    _ _ Hin) as H.
      unfold pick_matches at 1 in H. unfold id_matches in Hid.
      now rewrite Hid, Hs, Hdel in H.
    + simpl. now rewrite Hpc.
  - intros o Ho Hio.
    assert (In o (fetchAvailableBookings eB d1)
            \/ In o (fetchCleanerBookings eB d1)) as [H|H].
    { destruct Ho as [Ho|Ho]; apply in_sort_by in Ho.
      - apply in_app_iff in Ho. destruct Ho as [Ho|Ho]; [now left|].
        apply filter_In in Ho. tauto.
      - apply filter_In in Ho. tauto. }
    + apply in_fetchAvailableBookings in H. destruct H as [H Hp].
      rewrite (Hrows o H Hio) in Hp. discriminate.
    + apply (in_fetchCleanerBookings _ _ _ _ HB1) in H.
      destruct H as [H [Hcl _]].
      rewrite (Hrows o H Hio) in Hcl. simpl in Hcl. congruence.
Qed.

Lemma picked_booking_visibility_witness :
  let d1 := snd (pickBooking (env_at "uA" 1) "b1" sample_db) in
  In (picked_by (env_at "uA" 1) cleaner_A (new_booking "b1" "s1" 0 500))
     (current (fst (loadOrders (env_at "uA" 2) d1)))
  /\ current (fst (loadOrders (env_at "uB" 2) d1)) = [].
Proof.
  intro d1.
  destruct (picked_booking_visibility (env_at "uA" 1) (env_at "uB" 2)
              sample_db "b1" (new_booking "b1" "s1" 0 500)
              cleaner_A cleaner_B eq_refl eq_refl ltac:(discriminate)
              eq_refl eq_refl eq_refl eq_refl eq_refl)
    as [_ [H _]].
  split; [exact H | reflexivity].
Defined.

(** ** Start, pause and complete on a booking in another state *)

Lemma update_where_no_status (p : booking -> bool) f bid rows :
  (forall b, p b = true -> id b = bid /\ is_deleted b = false) ->
  (forall b, In b rows -> id b = bid -> is_deleted b = false ->
             p b = false) ->
  update_where p f rows = rows.
Proof.
  intros Hp Hno. apply update_where_none. intros b Hin.
  destruct (p b) eqn:E; [|reflexivity].
  destruct (Hp b E) as [Hid Hdel]. rewrite <- E. now apply Hno.
Qed.

(** X19: [startJob], [pauseJob] and [completeJob] never report a failed
    precondition.  Unless the store answers the update with an error they
    return normally, and when the booking is missing, soft-deleted or not
    in the status the operation expects they leave the database as it
    is. *)
Theorem start_pause_complete_silent (e : env) (bid : string) (d : db) :
  update_error e = None ->
  (fst (startJob e bid d) = Ok tt
   /\ fst (pauseJob e bid d) = Ok tt
   /\ fst (completeJob e bid d) = Ok tt)
  /\ ((forall b, In b (bookings d) -> id b = bid ->
                 status b <> picked \/ is_deleted b = true) ->
      snd (startJob e bid d) = d)
  /\ ((forall b, In b (bookings d) -> id b = bid ->
                 status b <> in_progress \/ is_deleted b = true) ->
      snd (pauseJob e bid d) = d)
  /\ ((forall b, In b (bookings d) -> id b = bid ->
                 (status b <> in_progress /\ status b <> paused)
                 \/ is_deleted b = true) ->
      snd (completeJob e bid d) = d).
Proof.
  intro Hu. rewrite startJob_run, pauseJob_run, completeJob_run, Hu.
  cbn [fst snd]. split; [repeat split|]. split; [|split]; intro Hno.
  - rewrite (update_where_no_status _ _ bid); [apply set_bookings_same| |].
    + intros b Hm. apply matches_id_live. auto.
    + intros b Hin Hid Hdel. unfold start_matches.
      destruct (Hno b Hin Hid) as [Hs|Hs]; [|congruence].
      apply status_eqb_neq in Hs. rewrite Hs. now rewrite andb_false_r.
  - rewrite (update_where_no_status _ _ bid); [apply set_bookings_same| |].
    + intros b Hm. apply matches_id_live. auto.
    + intros b Hin Hid Hdel. unfold pause_matches.
      destruct (Hno b Hin Hid) as [Hs|Hs]; [|congruence].
      apply status_eqb_neq in Hs. rewrite Hs. now rewrite andb_false_r.
  - rewrite (update_where_no_status _ _ bid); [apply set_bookings_same| |].
    + intros b Hm. apply matches_id_live. auto 6.
    + intros b Hin Hid Hdel. unfold complete_matches.
      destruct (Hno b Hin Hid) as [[Hs1 Hs2]|Hs]; [|congruence].
      apply status_eqb_neq in Hs1, Hs2. rewrite Hs1, Hs2.
      now rewrite andb_false_r.
Qed.

Lemma start_pause_complete_silent_witness :
  startJob (env_at "uA" 3) "b1" sample_db = (Ok tt, sample_db)
  /\ completeJob (env_at "uA" 3) "b1" sample_db = (Ok tt, sample_db).
Proof.
  destruct (start_pause_complete_silent (env_at "uA" 3) "b1" sample_db
              eq_refl) as [[H1 [_ H3]] [H4 [_ H6]]].
  split; apply injective_projections; cbn [fst snd];
    try assumption.
  - apply H4. intros b [<-|[]] _. left. discriminate.
  - apply H6. intros b [<-|[]] _. left. split; discriminate.
Defined.

(** ** Where the pause total changes *)

Lemma same_total_update (p : booking -> bool) f rows :
  (forall b, total_pause_duration (f b) = total_pause_duration b) ->
  Forall2 (fun b b' => total_pause_duration b' = total_pause_duration b)
    rows (update_where p f rows).
Proof.
  intro H. apply Forall2_update_where; [reflexivity|]. intros; apply H.
Qed.

(** X20: [total_pause_duration] changes only when a paused booking is
    resumed.  [pickBooking], [startJob], [pauseJob], [completeJob],
    [uploadPaymentProof] and [requestWithdrawal] leave it as it is on every
    booking; [resumeJob] leaves it as it is or, on an undeleted paused
    booking, makes it the old total (null counting as 0) plus the whole
    minutes between the booking's [paused_at] and the clock reading of that
    call. *)
Theorem pause_total_changes_on_resume_only (e : env) (bid file_name : string)
  (a : Q) (d : db) :
  (forall op,
     In op [pickBooking e bid; startJob e bid; pauseJob e bid;
            completeJob e bid; requestWithdrawal e a] ->
     Forall2 (fun b b' => total_pause_duration b' = total_pause_duration b)
       (bookings d) (bookings (snd (op d))))
  /\ Forall2 (fun b b' => total_pause_duration b' = total_pause_duration b)
       (bookings d) (bookings (snd (uploadPaymentProof e bid file_name d)))
  /\ Forall2 (pause_total_step e)
       (bookings d) (bookings (snd (resumeJob e bid d))).
Proof.
  assert (Hsame : Forall2
            (fun b b' => total_pause_duration b' = total_pause_duration b)
            (bookings d) (bookings d)) by (apply Forall2_same; reflexivity).
  split; [|split].
  - intros op [<-|[<-|[<-|[<-|[<-|[]]]]]].
    + destruct (pickBooking_cases e bid d) as [->|[c ->]]; [exact Hsame|].
      cbn [bookings set_bookings]. now apply same_total_update.
    + rewrite startJob_run. destruct (update_error e); [exact Hsame|].
      cbn [snd bookings set_bookings]. now apply same_total_update.
    + rewrite pauseJob_run. destruct (update_error e); [exact Hsame|].
      cbn [snd bookings set_bookings]. now apply same_total_update.
    + rewrite completeJob_run. destruct (update_error e); [exact Hsame|].
      cbn [snd bookings set_bookings]. now apply same_total_update.
    + rewrite requestWithdrawal_bookings. exact Hsame.
  - destruct (uploadPaymentProof_cases e bid file_name d)
      as [->|[_ [_ ->]]]; [exact Hsame|].
    cbv zeta. cbn [bookings set_bookings set_cleaners].
    apply Forall2_update_proof; [reflexivity|].
    intros cs0 r _ _. rewrite trigger_row by discriminate.
    now destruct (truthy (payment_proof_url r)).
  - assert (Hsame' : Forall2 (pause_total_step e) (bookings d) (bookings d))
      by (apply Forall2_same; intro; now left).
    rewrite resumeJob_run.
    destruct (single _) as [read|] eqn:Hs; [|exact Hsame'].
    destruct (paused_at read) as [p|] eqn:Hp; [|exact Hsame'].
    destruct (update_error e); [exact Hsame'|].
    cbn [snd bookings set_bookings].
    apply Forall2_update_where; [intro; now left|].
    intros r Hin Hm.
    assert (r = read) as <-
      by (eapply single_filter_in; eauto using resume_matches_id).
    right. exists p.
    pose proof (proj1 (proj2 (proj2 (proj2 (matches_status bid r)))) Hm).
    destruct (matches_id_live bid r) as [_ Hdel]; [tauto|].
    repeat split; assumption.
Qed.

(** ** The earnings figures and the history list *)

Lemma fetchCleanerBookings_in e d b :
  In b (fetchCleanerBookings e d) -> In b (bookings d).
Proof.
  unfold fetchCleanerBookings. destruct (session e); [|intros []].
  destruct (fst (select_cleaner e d)) as [[c|]|]; try (intros []).
  destruct (select_error e); [intros []|].
  intro H. apply in_sort_by, filter_In in H. tauto.
Qed.

(** X21: in every database built by the operations, the bookings counted
    in the earnings figures are exactly those of the history list: the
    number of completed jobs is the length of the history list, and
    [pendingCashout] is the sum of the amounts of the orders in it. *)
Theorem reachable_earnings_match_history (e : env) (d : db) :
  reachable d ->
  let orders := fst (loadOrders e d) in
  let earnings := snd (loadOrders e d) in
  earnings_completedJobs earnings = List.length (history orders)
  /\ earnings_pendingCashout earnings
     == sum_if (fun _ => true) (history orders).
Proof.
  intros Hr orders earnings. subst orders earnings. unfold loadOrders.
  cbn [fst snd earnings_completedJobs earnings_pendingCashout history].
  set (mine := fetchCleanerBookings e d).
  assert (Hfilter :
            filter (fun b => truthy (payment_collected_at b)
                             && status_eqb (status b) payment_verified) mine
            = completedBookings mine).
  { unfold completedBookings. apply filter_ext_in. intros b Hin.
    apply fetchCleanerBookings_in in Hin.
    pose proof (proj1 (Forall_forall _ _) (reachable_settled d Hr) b Hin)
      as [[Hs _] _].
    destruct (payment_collected_at b); [|reflexivity].
    rewrite Hs by discriminate. reflexivity. }
  unfold historyOrders, completedJobs, pendingCashout. rewrite Hfilter. split.
  - now rewrite (Permutation_length (sort_by_perm _ _)).
  - rewrite fold_left_amount, sum_if_sort_by. lra.
Qed.

Lemma reachable_earnings_match_history_witness :
  earnings_completedJobs (snd (loadOrders (env_at "uA" 90) verified_db)) = 1%nat
  /\ List.length (history (fst (loadOrders (env_at "uA" 90) verified_db)))
     = 1%nat.
Proof.
  split; [reflexivity|].
  rewrite <- (proj1 (reachable_earnings_match_history (env_at "uA" 90)
                       verified_db
                       (reachable_step done_db verified_db done_db_reachable
                          (step_upload (env_at "uA" (minutes 80)) "b1"
                             "cash.png" done_db)))).
  reflexivity.
Defined.
